(** * KVSHS-APP: password-reset flow

    A shallow embedding of [src/lib/users.ts] (the data-access layer over the
    [AppUsers] and [password_reset_otps] tables) and of the [ForgotPassword]
    component (the three-step reset-flow controller), with the properties of
    the one-time-password lifecycle proved over it.

    Conventions of the embedding:
    - a timestamp is the number of milliseconds since the epoch, a [Z];
      [toISOString] and the store's timestamp parsing are order-preserving and
      are not represented;
    - the hosted store and the e-mail service are state: a [World] holds the
      two tables, the clock, the sent mail and, for every request still to
      come, whether the collaborator will fail it and with which error;
    - an [async] function is a function from the world to an [Outcome]
      (returned value or thrown value) and the world after it. *)

From Stdlib Require Import List String Ascii ZArith Bool Lia DecimalString.
Import ListNotations.

Local Open Scope string_scope.
Local Open Scope Z_scope.

(** ** JavaScript strings *)

(** [s.includes(sub)]: [sub] occurs in [s] (case-sensitive). *)
Fixpoint includes (s sub : string) : bool :=
  if String.prefix sub s then true
  else match s with
       | EmptyString => false
       | String _ s' => includes s' sub
       end.

(** A string is falsy exactly when it is empty. *)
Definition falsy (s : string) : bool := String.eqb s "".

(** ** Rows of the two tables *)

Inductive Status := Pending | Approved.

Module AppUser.
Record t := mk {
  full_name : string;
  email : string;
  password : string;
  status : Status
}.
End AppUser.

Module PasswordResetOtp.
Record t := mk {
  id : string;
  email : string;
  otp : string;
  created_at : Z;
  expires_at : Z;
  used : bool
}.

Definition set_used (b : bool) (r : t) : t :=
  mk (id r) (email r) (otp r) (created_at r) (expires_at r) b.
End PasswordResetOtp.

(** ** Errors *)

(** The error object of a failed store request.  [message] is read with
    [?.] by the code, so it may be absent.  [is_Error] records whether the
    object is an instance of [Error], which depends on the client library's
    version and is only observed by the controller's [instanceof] test. *)
Record PostgrestError := {
  code : string;
  message : option string;
  details : string;
  is_Error : bool
}.

(** What a [throw] can carry in these two files. *)
Inductive Thrown :=
| JsError (msg : string)            (* new Error(msg) *)
| Postgrest (e : PostgrestError)    (* a store error, rethrown as it is *)
| EmailJS (status : Z) (text : string). (* the rejection of emailjs.send *)

Definition instanceofError (x : Thrown) : bool :=
  match x with
  | JsError _ => true
  | Postgrest e => is_Error e
  | EmailJS _ _ => false
  end.

Definition thrown_message (x : Thrown) : option string :=
  match x with
  | JsError m => Some m
  | Postgrest e => message e
  | EmailJS _ _ => None
  end.

Inductive Outcome (A : Type) :=
| Returned (a : A)
| Threw (x : Thrown).
Arguments Returned {A} a.
Arguments Threw {A} x.

(** ** The world: store, clock, mail *)

(** A data-access call or a mail dispatch, as the controller issues it. *)
Inductive Call :=
| CallGetUserByEmail (email : string)
| CallCreatePasswordResetOtp (email otp : string)
| CallSendOtpEmail (email otp : string)
| CallVerifyPasswordResetOtp (email otp : string)
| CallResetPassword (email newPassword : string).

Record World := mkWorld {
  AppUsers : list AppUser.t;
  password_reset_otps : list PasswordResetOtp.t;
  (* Date.now() *)
  clock : Z;
  (* one entry per store request to come: [Some e] fails it with [e];
     a request beyond the end of the list is served *)
  faults : list (option PostgrestError);
  (* the store's generator of row ids, and how many it has handed out *)
  uuid : nat -> string;
  serial : nat;
  (* likewise for emailjs.send: [Some (status, text)] rejects it *)
  mail_faults : list (option (Z * string));
  (* mail delivered so far, newest first: (to_email, otp) *)
  outbox : list (string * string);
  (* the values Math.floor(Math.random() * 900000) will take *)
  entropy : list Z;
  (* ghost: the calls the controller has issued, newest first *)
  calls : list Call
}.

Definition with_tables (us : list AppUser.t) (os : list PasswordResetOtp.t)
    (sn : nat) (w : World) : World :=
  mkWorld us os (clock w) (faults w) (uuid w) sn
          (mail_faults w) (outbox w) (entropy w) (calls w).

Definition with_faults (fs : list (option PostgrestError)) (w : World) : World :=
  mkWorld (AppUsers w) (password_reset_otps w) (clock w) fs (uuid w) (serial w)
          (mail_faults w) (outbox w) (entropy w) (calls w).

Definition with_mail (mf : list (option (Z * string)))
    (ob : list (string * string)) (w : World) : World :=
  mkWorld (AppUsers w) (password_reset_otps w) (clock w) (faults w) (uuid w)
          (serial w) mf ob (entropy w) (calls w).

Definition with_entropy (en : list Z) (w : World) : World :=
  mkWorld (AppUsers w) (password_reset_otps w) (clock w) (faults w) (uuid w)
          (serial w) (mail_faults w) (outbox w) en (calls w).

Definition with_calls (cs : list Call) (w : World) : World :=
  mkWorld (AppUsers w) (password_reset_otps w) (clock w) (faults w) (uuid w)
          (serial w) (mail_faults w) (outbox w) (entropy w) cs.

Definition with_clock (t : Z) (w : World) : World :=
  mkWorld (AppUsers w) (password_reset_otps w) t (faults w) (uuid w)
          (serial w) (mail_faults w) (outbox w) (entropy w) (calls w).

(** The fault the [k]-th next store request will meet. *)
Definition fault_at (k : nat) (w : World) : option PostgrestError :=
  nth k (faults w) None.

(** ** The async monad *)

Definition Async (A : Type) : Type := World -> Outcome A * World.

Definition ret {A} (a : A) : Async A := fun w => (Returned a, w).
Definition throw {A} (x : Thrown) : Async A := fun w => (Threw x, w).
Definition bind {A B} (m : Async A) (k : A -> Async B) : Async B :=
  fun w => match m w with
           | (Returned a, w') => k a w'
           | (Threw x, w') => (Threw x, w')
           end.

Declare Scope async_scope.
Delimit Scope async_scope with async.
Notation "'let/a' x ':=' m 'in' k" := (bind m (fun x => k))
  (at level 10, x pattern, m at level 100, k at level 200) : async_scope.

(** ** The store client *)

(** What [await supabase.from(..)...] destructures: [{ data, error }]. *)
Record Response (A : Type) := mkResponse {
  data : option A;
  error : option PostgrestError
}.
Arguments mkResponse {A} data error.
Arguments data {A} r.
Arguments error {A} r.

Definition ok {A} (a : A) : Response A := mkResponse (Some a) None.
Definition failed {A} (e : PostgrestError) : Response A := mkResponse None (Some e).

(** The error [.single()] answers with when the result is not exactly one
    row: PostgREST's PGRST116, for no row and for several rows alike. *)
Definition PGRST116 (n : nat) : PostgrestError :=
  {| code := "PGRST116";
     message := Some "JSON object requested, multiple (or no) rows returned";
     details := "Results contain " ++ NilZero.string_of_uint (Nat.to_uint n)
                ++ " rows, application/vnd.pgrst.object+json requires 1 row";
     is_Error := false |}.

Definition single {A} (rows : list A) : Response A :=
  match rows with
  | [r] => ok r
  | _ => failed (PGRST116 (List.length rows))
  end.

(** One request: the collaborator fails it, leaving the tables as they
    were, or serves the query [q]. *)
Definition request {A} (q : World -> Response A * World) (w : World)
    : Response A * World :=
  match faults w with
  | Some e :: fs => (failed e, with_faults fs w)
  | None :: fs => q (with_faults fs w)
  | [] => q w
  end.

(** [await supabase...]: the request, as a step of an async function. *)
Definition await {A} (q : World -> Response A * World) : Async (Response A) :=
  fun w => let (r, w') := request q w in (Returned r, w').

(** *** Queries on [AppUsers] *)

Definition email_is (email : string) (u : AppUser.t) : bool :=
  String.eqb (AppUser.email u) email.

(** [.select(..).eq('email', email).single()] *)
Definition select_user (email : string) (w : World)
    : Response AppUser.t * World :=
  (single (filter (email_is email) (AppUsers w)), w).

(** [.update({ password, status: 'Pending' }).eq('email', email)] *)
Definition update_password (email newPassword : string) (w : World)
    : Response unit * World :=
  (mkResponse None None,
   with_tables
     (map (fun u => if email_is email u
                    then AppUser.mk (AppUser.full_name u) (AppUser.email u)
                                    newPassword Pending
                    else u) (AppUsers w))
     (password_reset_otps w) (serial w) w).

(** *** Queries on [password_reset_otps] *)

(** Modelled from the spec: the column defaults of [password_reset_otps],
    whose schema is not part of the sources.  A row inserted without them
    gets a fresh [id], [created_at] the time of the insertion and [used]
    false. *)
Definition otp_defaults (w : World) (email otp : string) (expires_at : Z)
    : PasswordResetOtp.t :=
  PasswordResetOtp.mk (uuid w (serial w)) email otp (clock w) expires_at false.

(** [.insert({ email, otp, expires_at }).select(..).single()] *)
Definition insert_otp (email otp : string) (expires_at : Z) (w : World)
    : Response PasswordResetOtp.t * World :=
  let row := otp_defaults w email otp expires_at in
  (single [row],
   with_tables (AppUsers w) (password_reset_otps w ++ [row])%list
               (S (serial w)) w).

(** [.order(key, { ascending: false })]: a stable sort, largest key first.
    (Among rows of equal key the store may answer in any order; the model
    keeps the table's.) *)
Fixpoint insert_desc {A} (key : A -> Z) (x : A) (l : list A) : list A :=
  match l with
  | [] => [x]
  | y :: l' => if key y <=? key x then x :: l else y :: insert_desc key x l'
  end.

Fixpoint order_desc {A} (key : A -> Z) (l : list A) : list A :=
  match l with
  | [] => []
  | x :: l' => insert_desc key x (order_desc key l')
  end.

(** The filters of [verifyPasswordResetOtp]:
    [.eq('email', email).eq('otp', otp).eq('used', false).gt('expires_at', now)] *)
Definition valid_for (email otp : string) (now : Z) (r : PasswordResetOtp.t)
    : bool :=
  String.eqb (PasswordResetOtp.email r) email
  && String.eqb (PasswordResetOtp.otp r) otp
  && Bool.eqb (PasswordResetOtp.used r) false
  && (now <? PasswordResetOtp.expires_at r).

(** [...order('created_at', { ascending: false }).limit(1).single()] *)
Definition select_newest_valid (email otp : string) (now : Z) (w : World)
    : Response PasswordResetOtp.t * World :=
  (single
     (firstn 1
        (order_desc PasswordResetOtp.created_at
           (filter (valid_for email otp now) (password_reset_otps w)))),
   w).

(** [.update({ used: true }).eq('id', id)] *)
Definition mark_used (id : string) (rows : list PasswordResetOtp.t)
    : list PasswordResetOtp.t :=
  map (fun r => if String.eqb (PasswordResetOtp.id r) id
                then PasswordResetOtp.set_used true r else r) rows.

Definition update_used (id : string) (w : World) : Response unit * World :=
  (mkResponse None None,
   with_tables (AppUsers w) (mark_used id (password_reset_otps w)) (serial w) w).

(** [.delete().lt('expires_at', now)] *)
Definition expired (now : Z) (r : PasswordResetOtp.t) : bool :=
  PasswordResetOtp.expires_at r <? now.

Definition delete_expired (now : Z) (w : World) : Response unit * World :=
  (mkResponse None None,
   with_tables (AppUsers w)
               (filter (fun r => negb (expired now r)) (password_reset_otps w))
               (serial w) w).

(** ** The data-access layer, [src/lib/users.ts] *)

Local Open Scope async_scope.

Definition getUserByEmail (email : string) : Async (option AppUser.t) :=
  let/a r := await (select_user email) in
  match error r with
  | Some e =>
      if String.eqb (code e) "PGRST116" then ret None (* No rows found *)
      else throw (Postgrest e)
  | None => ret (data r)
  end.

Definition resetPassword (email newPassword : string) : Async unit :=
  (* Check if user exists *)
  let/a user := getUserByEmail email in
  match user with
  | None => throw (JsError "User not found")
  | Some _ =>
      (* Update password and set status to Pending for re-approval *)
      let/a r := await (update_password email newPassword) in
      match error r with
      | Some e => throw (Postgrest e)
      | None => ret tt
      end
  end.

Definition permission_message : string :=
  "Database permission error. Please disable RLS for password_reset_otps table or check your Supabase policies.".

(** [error.code === '42501' || error.message?.includes('permission')] *)
Definition looks_like_rls (e : PostgrestError) : bool :=
  String.eqb (code e) "42501"
  || match message e with
     | Some m => includes m "permission"
     | None => false
     end.

(** The result is [data] as the store answered it: the inserted row
    whenever there is no error. *)
Definition createPasswordResetOtp (email otp : string)
    : Async (option PasswordResetOtp.t) :=
  fun w =>
    (let/a r := await (insert_otp email otp (clock w + 10 * 60 * 1000)) in
     match error r with
     | Some e =>
         (* If it's an RLS error, provide helpful message *)
         if looks_like_rls e then throw (JsError permission_message)
         else throw (Postgrest e)
     | None => ret (data r)
     end) w.

Definition verifyPasswordResetOtp (email otp : string) : Async bool :=
  fun w =>
    (let/a r := await (select_newest_valid email otp (clock w)) in
     match error r, data r with
     | None, Some row =>
         (* Mark OTP as used *)
         let/a u := await (update_used (PasswordResetOtp.id row)) in
         match error u with
         | Some updateError => throw (Postgrest updateError)
         | None => ret true
         end
     | _, _ => ret false
     end) w.

Definition cleanupExpiredOtps : Async unit :=
  fun w =>
    (let/a r := await (delete_expired (clock w)) in
     match error r with
     | Some e => throw (Postgrest e)
     | None => ret tt
     end) w.

(** [Omit<AppUser, 'status'>], the argument of [addUser]. *)
Module NewUser.
Record t := mk {
  full_name : string;
  email : string;
  password : string
}.
End NewUser.

(** [.insert({ full_name, email, password, status: 'Pending' }).select(..).single()].
    A store that refuses the row (a duplicate e-mail, a policy) is a store
    that fails the request: see [request]. *)
Definition insert_user (user : NewUser.t) (w : World)
    : Response AppUser.t * World :=
  let row := AppUser.mk (NewUser.full_name user) (NewUser.email user)
                        (NewUser.password user) Pending in
  (single [row],
   with_tables (AppUsers w ++ [row])%list (password_reset_otps w) (serial w) w).

Definition addUser (user : NewUser.t) : Async (option AppUser.t) :=
  let/a r := await (insert_user user) in
  match error r with
  | Some e => throw (Postgrest e)
  | None => ret (data r)
  end.

(** [.update({ status }).eq('email', email)] *)
Definition update_status (email : string) (status : Status) (w : World)
    : Response unit * World :=
  (mkResponse None None,
   with_tables
     (map (fun u => if email_is email u
                    then AppUser.mk (AppUser.full_name u) (AppUser.email u)
                                    (AppUser.password u) status
                    else u) (AppUsers w))
     (password_reset_otps w) (serial w) w).

Definition updateUserStatus (email : string) (status : Status) : Async unit :=
  let/a r := await (update_status email status) in
  match error r with
  | Some e => throw (Postgrest e)
  | None => ret tt
  end.

Local Close Scope async_scope.

(** ** The reset-flow controller, the [ForgotPassword] component *)

Module FormData.
Record t := mk {
  email : string;
  otp : string;
  newPassword : string;
  confirmPassword : string
}.

Definition empty : t := mk "" "" "" "".
End FormData.

(** The [name] attribute of the inputs. *)
Module Field.
Inductive t := email | otp | newPassword | confirmPassword.
End Field.

Module Step.
Inductive t := email | otp | password.
End Step.

Inductive Icon := icon_error | icon_success.

(** The argument of [Swal.fire]. *)
Record Notice := {
  icon : Icon;
  title : string;
  text : string
}.

(** The component's state, and the notices it has shown, newest first. *)
Record Component := mkComponent {
  formData : FormData.t;
  isLoading : bool;
  step : Step.t;
  notices : list Notice
}.

(** What a handler asks of React and of the alert library. *)
Inductive Update :=
| setFormData (fd : FormData.t)
| setIsLoading (b : bool)
| setStep (s : Step.t)
| Swal_fire (n : Notice).

Definition apply_update (c : Component) (u : Update) : Component :=
  match u with
  | setFormData fd => mkComponent fd (isLoading c) (step c) (notices c)
  | setIsLoading b => mkComponent (formData c) b (step c) (notices c)
  | setStep s => mkComponent (formData c) (isLoading c) s (notices c)
  | Swal_fire n => mkComponent (formData c) (isLoading c) (step c) (n :: notices c)
  end.

Definition apply_updates (us : list Update) (c : Component) : Component :=
  fold_left apply_update us c.

(** [setFormData(prev => ({ ...prev, [name]: value }))] *)
Definition handleInputChange (name : Field.t) (value : string)
    (prev : FormData.t) : FormData.t :=
  match name with
  | Field.email =>
      FormData.mk value (FormData.otp prev) (FormData.newPassword prev)
                  (FormData.confirmPassword prev)
  | Field.otp =>
      FormData.mk (FormData.email prev) value (FormData.newPassword prev)
                  (FormData.confirmPassword prev)
  | Field.newPassword =>
      FormData.mk (FormData.email prev) (FormData.otp prev) value
                  (FormData.confirmPassword prev)
  | Field.confirmPassword =>
      FormData.mk (FormData.email prev) (FormData.otp prev)
                  (FormData.newPassword prev) value
  end.

(** A handler returns before its first [await], or suspends there: the
    updates made so far, and the rest of the handler, which runs when the
    awaited calls complete.  The rest reads the [formData] the handler was
    created with, not the component's state at that later time. *)
Inductive Handler :=
| Finished (us : list Update)
| Suspended (us : list Update) (rest : World -> list Update * World).

(** [try { body } catch (error) { handler } finally { setIsLoading(false) }] *)
Definition try_catch_finally (body : Async (list Update))
    (catch : Thrown -> list Update) (w : World) : list Update * World :=
  match body w with
  | (Returned us, w') => (us ++ [setIsLoading false], w')%list
  | (Threw x, w') => (catch x ++ [setIsLoading false], w')%list
  end.

(** Ghost: the call is recorded, then made. *)
Definition traced {A} (c : Call) (m : Async A) : Async A :=
  fun w => m (with_calls (c :: calls w) w).

(** [Math.floor(100000 + Math.random() * 900000).toString()].  The floating
    point product is not computed here: the world says which integer
    [Math.floor(Math.random() * 900000)] is. *)
Definition generateOtp : Async string :=
  fun w =>
    match entropy w with
    | n :: en =>
        (Returned (NilZero.string_of_int (Z.to_int (100000 + n))),
         with_entropy en w)
    | [] => (Returned (NilZero.string_of_int (Z.to_int 100000)), w)
    end.

(** [emailjs.send(...)] inside a [try] whose [catch] rethrows. *)
Definition sendOtpEmail (email otp : string) : Async unit :=
  fun w =>
    match mail_faults w with
    | Some (status, text) :: mf =>
        (Threw (EmailJS status text), with_mail mf (outbox w) w)
    | None :: mf => (Returned tt, with_mail mf ((email, otp) :: outbox w) w)
    | [] => (Returned tt, with_mail [] ((email, otp) :: outbox w) w)
    end.

Definition notice_missing_email : Notice :=
  {| icon := icon_error; title := "Missing Email";
     text := "Please enter your email address." |}.
Definition notice_user_not_found : Notice :=
  {| icon := icon_error; title := "User Not Found";
     text := "No account found with this email address." |}.
Definition notice_otp_sent : Notice :=
  {| icon := icon_success; title := "OTP Sent";
     text := "Please check your email for the OTP." |}.
Definition notice_error (text : string) : Notice :=
  {| icon := icon_error; title := "Error"; text := text |}.
Definition notice_missing_otp : Notice :=
  {| icon := icon_error; title := "Missing OTP";
     text := "Please enter the OTP." |}.
Definition notice_invalid_otp : Notice :=
  {| icon := icon_error; title := "Invalid OTP";
     text := "The OTP you entered is incorrect or has expired." |}.
Definition notice_missing_fields : Notice :=
  {| icon := icon_error; title := "Missing Fields";
     text := "Please fill in all fields." |}.
Definition notice_password_mismatch : Notice :=
  {| icon := icon_error; title := "Password Mismatch";
     text := "New password and confirm password do not match." |}.
Definition notice_reset_successful : Notice :=
  {| icon := icon_success; title := "Password Reset Successful";
     text := "Your password has been reset. Please wait for admin approval before logging in." |}.

(** [x?.includes(sub)] as a condition: an absent [x] is falsy. *)
Definition opt_includes (x : option string) (sub : string) : bool :=
  match x with
  | Some m => includes m sub
  | None => false
  end.

(** The message of the [catch] of [handleSendOtp]. *)
Definition send_error_message (x : Thrown) : string :=
  if instanceofError x then
    if opt_includes (thrown_message x) "permission"
       || opt_includes (thrown_message x) "RLS"
    then "Database permission error. Please contact administrator to disable RLS for password_reset_otps table."
    else if opt_includes (thrown_message x) "table does not exist"
    then "Database table not found. Please contact administrator to create password_reset_otps table."
    else "Failed to send OTP: "
         ++ match thrown_message x with Some m => m | None => "undefined" end
  else "Failed to send OTP. Please try again.".

Local Open Scope async_scope.

Definition handleSendOtp (formData : FormData.t) : Handler :=
  if falsy (FormData.email formData) then Finished [Swal_fire notice_missing_email]
  else
    Suspended [setIsLoading true]
      (try_catch_finally
         ((* First check if user exists *)
          let/a user := traced (CallGetUserByEmail (FormData.email formData))
                               (getUserByEmail (FormData.email formData)) in
          match user with
          | None => ret [Swal_fire notice_user_not_found]
          | Some _ =>
              let/a otp := generateOtp in
              let/a _ := traced (CallCreatePasswordResetOtp
                                   (FormData.email formData) otp)
                                (createPasswordResetOtp
                                   (FormData.email formData) otp) in
              let/a _ := traced (CallSendOtpEmail (FormData.email formData) otp)
                                (sendOtpEmail (FormData.email formData) otp) in
              ret [setStep Step.otp; Swal_fire notice_otp_sent]
          end)
         (fun error => [Swal_fire (notice_error (send_error_message error))])).

Definition handleVerifyOtp (formData : FormData.t) : Handler :=
  if falsy (FormData.otp formData) then Finished [Swal_fire notice_missing_otp]
  else
    Suspended [setIsLoading true]
      (try_catch_finally
         (let/a isValid :=
            traced (CallVerifyPasswordResetOtp (FormData.email formData)
                                               (FormData.otp formData))
                   (verifyPasswordResetOtp (FormData.email formData)
                                           (FormData.otp formData)) in
          if negb isValid then ret [Swal_fire notice_invalid_otp]
          else ret [setStep Step.password])
         (fun _ =>
            [Swal_fire (notice_error "Failed to verify OTP. Please try again.")])).

Definition handleResetPassword (formData : FormData.t) : Handler :=
  if falsy (FormData.newPassword formData)
     || falsy (FormData.confirmPassword formData)
  then Finished [Swal_fire notice_missing_fields]
  else if negb (String.eqb (FormData.newPassword formData)
                           (FormData.confirmPassword formData))
  then Finished [Swal_fire notice_password_mismatch]
  else
    Suspended [setIsLoading true]
      (try_catch_finally
         (let/a _ :=
            traced (CallResetPassword (FormData.email formData)
                                      (FormData.newPassword formData))
                   (resetPassword (FormData.email formData)
                                  (FormData.newPassword formData)) in
          ret [Swal_fire notice_reset_successful;
               (* Reset form *)
               setFormData FormData.empty;
               setStep Step.email])
         (fun _ =>
            [Swal_fire (notice_error "Failed to reset password. Please try again.")])).

Local Close Scope async_scope.

(** *** What is on the page *)

(** [{step === 'email' && (<form onSubmit={handleSendOtp}> ...)}] and the
    two forms after it. *)
Definition onSubmit (s : Step.t) : FormData.t -> Handler :=
  match s with
  | Step.email => handleSendOtp
  | Step.otp => handleVerifyOtp
  | Step.password => handleResetPassword
  end.

(** The inputs of the form of each step. *)
Definition rendered (s : Step.t) (name : Field.t) : bool :=
  match s, name with
  | Step.email, Field.email => true
  | Step.otp, Field.otp => true
  | Step.password, Field.newPassword => true
  | Step.password, Field.confirmPassword => true
  | _, _ => false
  end.

(** *** The page as a transition system *)

(** The component, the handler suspended at its [await]s if there is one,
    and the world. *)
Record State := mkState {
  ui : Component;
  inflight : option (World -> list Update * World);
  world : World
}.

Inductive Event :=
| Change (name : Field.t) (value : string) (* onChange of an input *)
| Submit                                    (* onSubmit of the form *)
| Settle                                    (* the awaited calls complete *)
| Elapse (d : Z).                           (* time passes *)

Definition initial (w : World) : State :=
  mkState (mkComponent FormData.empty false Step.email []) None w.

(** An event happens only where the page allows it: an input only when its
    form is rendered, a submission only while the button is not disabled
    ([disabled={isLoading}]).  [None]: the event cannot happen. *)
Definition dispatch (s : State) (ev : Event) : option State :=
  match ev with
  | Change name value =>
      if rendered (step (ui s)) name
      then Some (mkState
                   (apply_update (ui s)
                      (setFormData (handleInputChange name value
                                                      (formData (ui s)))))
                   (inflight s) (world s))
      else None
  | Submit =>
      if isLoading (ui s) then None
      else match onSubmit (step (ui s)) (formData (ui s)) with
           | Finished us => Some (mkState (apply_updates us (ui s))
                                          (inflight s) (world s))
           | Suspended us rest => Some (mkState (apply_updates us (ui s))
                                                (Some rest) (world s))
           end
  | Settle =>
      match inflight s with
      | Some rest =>
          let (us, w') := rest (world s) in
          Some (mkState (apply_updates us (ui s)) None w')
      | None => None
      end
  | Elapse d =>
      if 0 <=? d
      then Some (mkState (ui s) (inflight s)
                         (with_clock (clock (world s) + d) (world s)))
      else None
  end.

Fixpoint run (s : State) (evs : list Event) : option State :=
  match evs with
  | [] => Some s
  | ev :: evs' =>
      match dispatch s ev with
      | Some s' => run s' evs'
      | None => None
      end
  end.

(** The e-mail input is left alone while a handler is suspended. *)
Definition quiet (s : State) (ev : Event) : bool :=
  match ev, inflight s with
  | Change Field.email _, Some _ => false
  | _, _ => true
  end.

Fixpoint all_quiet (s : State) (evs : list Event) : bool :=
  match evs with
  | [] => true
  | ev :: evs' =>
      quiet s ev
      && match dispatch s ev with
         | Some s' => all_quiet s' evs'
         | None => true
         end
  end.

(** The e-mail of the latest user lookup in a log of calls (newest first). *)
Fixpoint last_lookup (cs : list Call) : option string :=
  match cs with
  | [] => None
  | CallGetUserByEmail e :: _ => Some e
  | _ :: cs' => last_lookup cs'
  end.

Definition is_lookup_of (e : string) (x : option string) : bool :=
  match x with
  | Some e' => String.eqb e' e
  | None => false
  end.

(** Every verification and every reset in the log was called with the
    e-mail of the user lookup that precedes it. *)
Fixpoint emails_agree (cs : list Call) : bool :=
  match cs with
  | [] => true
  | CallVerifyPasswordResetOtp e _ :: cs' =>
      is_lookup_of e (last_lookup cs') && emails_agree cs'
  | CallResetPassword e _ :: cs' =>
      is_lookup_of e (last_lookup cs') && emails_agree cs'
  | _ :: cs' => emails_agree cs'
  end.

(** A row is valid for [(email, otp)] at time [now]: it carries that
    e-mail and code, is unused, and expires after [now]. *)
Definition Valid (email otp : string) (now : Z) (r : PasswordResetOtp.t) : Prop :=
  PasswordResetOtp.email r = email
  /\ PasswordResetOtp.otp r = otp
  /\ PasswordResetOtp.used r = false
  /\ now < PasswordResetOtp.expires_at r.

(** The tables are the same in two worlds. *)
Definition same_tables (w w' : World) : Prop :=
  AppUsers w' = AppUsers w /\ password_reset_otps w' = password_reset_otps w.

(** The suspended handler, if there is one, is the handler of the form of
    the current step, created with a [formData] that satisfies [P]. *)
Definition owned (P : FormData.t -> Prop) (s : State) : Prop :=
  match inflight s with
  | None => True
  | Some rest =>
      exists fd us, P fd /\ onSubmit (step (ui s)) fd = Suspended us rest
  end.

(** The invariant of the runs in which the e-mail input is left alone
    while a handler is suspended. *)
Definition Inv (s : State) : Prop :=
  emails_agree (calls (world s)) = true
  /\ (step (ui s) <> Step.email ->
      last_lookup (calls (world s))
      = Some (FormData.email (formData (ui s))))
  /\ owned (fun fd => FormData.email fd = FormData.email (formData (ui s))) s.

(** ** Sample data *)

Module Sample.
Definition uuid (n : nat) : string :=
  "otp-" ++ NilZero.string_of_uint (Nat.to_uint n).

Definition alice : AppUser.t :=
  AppUser.mk "Alice" "a@x.com" "old-secret" Approved.
Definition bob : AppUser.t :=
  AppUser.mk "Bob" "b@x.com" "hunter2" Pending.

(** The time of the samples. *)
Definition noon : Z := 1000000.

(** Valid at [noon] for ("a@x.com", "123456"). *)
Definition fresh : PasswordResetOtp.t :=
  PasswordResetOtp.mk "otp-0" "a@x.com" "123456" 900000 1500000 false.
(** A second, newer row with the same e-mail and code, valid too. *)
Definition twin : PasswordResetOtp.t :=
  PasswordResetOtp.mk "otp-1" "a@x.com" "123456" 950000 1550000 false.
(** The right code, expired. *)
Definition stale : PasswordResetOtp.t :=
  PasswordResetOtp.mk "otp-2" "a@x.com" "123456" 100000 700000 false.
(** Not expired, already used. *)
Definition spent : PasswordResetOtp.t :=
  PasswordResetOtp.mk "otp-3" "a@x.com" "123456" 960000 1560000 true.

Definition rls : PostgrestError :=
  {| code := "42501";
     message := Some "new row violates row-level security policy";
     details := ""; is_Error := false |}.
Definition denied : PostgrestError :=
  {| code := "PGRST301"; message := Some "permission denied for table";
     details := ""; is_Error := false |}.
Definition outage : PostgrestError :=
  {| code := "503"; message := Some "upstream unavailable";
     details := ""; is_Error := false |}.

Definition world (os : list PasswordResetOtp.t)
    (fs : list (option PostgrestError)) : World :=
  mkWorld [alice; bob] os noon fs uuid (List.length os) [] [] [23456] [].

(** Valid at [noon] for ("b@x.com", "123456"). *)
Definition for_bob : PasswordResetOtp.t :=
  PasswordResetOtp.mk "otp-9" "b@x.com" "123456" 990000 1590000 false.

(** The address is edited while the lookup of the first one is awaited. *)
Definition race : list Event :=
  [Change Field.email "a@x.com"; Submit;
   Change Field.email "b@x.com"; Settle;
   Change Field.otp "123456"; Submit; Settle;
   Change Field.newPassword "NewPass1!";
   Change Field.confirmPassword "NewPass1!"; Submit; Settle].

(** The same flow, the address typed once. *)
Definition calm : list Event :=
  [Change Field.email "a@x.com"; Submit; Settle;
   Change Field.otp "123456"; Submit; Settle;
   Change Field.newPassword "NewPass1!";
   Change Field.confirmPassword "NewPass1!"; Submit; Settle].

Definition at_otp (fs : list (option PostgrestError)) : State :=
  mkState (mkComponent (FormData.mk "a@x.com" "123456" "" "") false
                       Step.otp [])
          None (world [fresh] fs).

Definition at_email (address : string) : State :=
  mkState (mkComponent (FormData.mk address "" "" "") false Step.email [])
          None (world [] []).

(** A newcomer, and a second row with alice's address. *)
Definition carol : NewUser.t := NewUser.mk "Carol" "c@x.com" "s3cret".
Definition alias : AppUser.t :=
  AppUser.mk "Alice B." "a@x.com" "other" Pending.

(** [world], with the users and the mail service's behaviour given too. *)
Definition world_with (us : list AppUser.t) (os : list PasswordResetOtp.t)
    (fs : list (option PostgrestError)) (mf : list (option (Z * string)))
    : World :=
  mkWorld us os noon fs uuid (List.length os) mf [] [23456] [].

(** The first step, alice's address typed in. *)
Definition asking (fs : list (option PostgrestError))
    (mf : list (option (Z * string))) : State :=
  mkState (mkComponent (FormData.mk "a@x.com" "" "" "") false Step.email [])
          None (world_with [alice; bob] [] fs mf).

(** The third step, a pair typed in. *)
Definition choosing (newPassword confirmPassword : string)
    (fs : list (option PostgrestError)) : State :=
  mkState (mkComponent (FormData.mk "a@x.com" "123456" newPassword
                                    confirmPassword)
                       false Step.password [])
          None (world [spent] fs).

(** The runs of [calm] up to the wait for the lookup, and up to the third
    step. *)
Definition waiting : list Event :=
  [Change Field.email "a@x.com"; Submit].
Definition verified : list Event :=
  [Change Field.email "a@x.com"; Submit; Settle;
   Change Field.otp "123456"; Submit; Settle].
End Sample.

(** How many rows are valid for [(email, otp)] at time [now]. *)
Definition valid_count (email otp : string) (now : Z)
    (rows : list PasswordResetOtp.t) : nat :=
  List.length (filter (valid_for email otp now) rows).

(** The argument a handler checks before it calls is not empty. *)
Definition call_ok (c : Call) : bool :=
  match c with
  | CallGetUserByEmail e => negb (falsy e)
  | CallCreatePasswordResetOtp e _ => negb (falsy e)
  | CallSendOtpEmail e _ => negb (falsy e)
  | CallVerifyPasswordResetOtp _ o => negb (falsy o)
  | CallResetPassword _ p => negb (falsy p)
  end.

(** In a log (newest first), [c] comes right after what it needs: a
    creation after the lookup of its address, a dispatch after the creation
    of its address and code. *)
Definition follows (c : Call) (before : list Call) : bool :=
  match c, before with
  | CallSendOtpEmail e o, CallCreatePasswordResetOtp e' o' :: _ =>
      String.eqb e e' && String.eqb o o'
  | CallSendOtpEmail _ _, _ => false
  | CallCreatePasswordResetOtp e _, CallGetUserByEmail e' :: _ => String.eqb e e'
  | CallCreatePasswordResetOtp _ _, _ => false
  | _, _ => true
  end.

Fixpoint in_order (cs : list Call) : bool :=
  match cs with
  | [] => true
  | c :: before => follows c before && in_order before
  end.

(** The busy flag is set exactly while a handler is suspended. *)
Definition busy_flag_ok (s : State) : Prop :=
  isLoading (ui s) = match inflight s with Some _ => true | None => false end.

(** Some row for [email] has been marked used. *)
Definition consumed (email : string) (rows : list PasswordResetOtp.t) : Prop :=
  exists row, In row rows
              /\ PasswordResetOtp.used row = true
              /\ PasswordResetOtp.email row = email.

(** The one step the page can take from each step. *)
Definition next_step (st : Step.t) : Step.t :=
  match st with
  | Step.email => Step.otp
  | Step.otp => Step.password
  | Step.password => Step.email
  end.

(** Past the [email] step the suspended handler was created with the
    address the form still shows, and in the [password] step a code for
    that address has been consumed. *)
Definition Guarded (s : State) : Prop :=
  owned (fun fd => step (ui s) <> Step.email ->
                   FormData.email fd = FormData.email (formData (ui s))) s
  /\ (step (ui s) = Step.password ->
      consumed (FormData.email (formData (ui s)))
               (password_reset_otps (world s))).

(** The code [generateOtp] hands out next. *)
Definition next_code (w : World) : string :=
  NilZero.string_of_int (Z.to_int (100000 + hd 0 (entropy w))).


(** * Properties *)

(** ** Helper facts on the store client *)

Lemma request_served {A} (q : World -> Response A * World) (w : World) :
  fault_at 0 w = None ->
  request q w = q (with_faults (tl (faults w)) w).
Proof.
  unfold fault_at, request. destruct w as [us os t fs g n mf ob en cs]; simpl.
  destruct fs as [|[e|] fs]; simpl; intros H; try discriminate; reflexivity.
Qed.

Lemma request_failed {A} (q : World -> Response A * World) (w : World) e :
  fault_at 0 w = Some e ->
  request q w = (failed e, with_faults (tl (faults w)) w).
Proof.
  unfold fault_at, request. destruct (faults w) as [|[e'|] fs]; simpl;
    intros H; try discriminate. now injection H as ->.
Qed.

Lemma filter_none {A} (f : A -> bool) (l : list A) :
  (forall x, In x l -> f x = false) -> filter f l = [].
Proof.
  induction l as [|a l IH]; simpl; intros H; [reflexivity|].
  rewrite (H a) by now left. apply IH. intros x Hx. apply H. now right.
Qed.

Lemma NoDup_key_split {A} (key : A -> string) (l1 l2 : list A) (u : A) :
  NoDup (map key (l1 ++ u :: l2)) ->
  (forall x, In x l1 -> key x <> key u) /\ (forall x, In x l2 -> key x <> key u).
Proof.
  intros Hnd. rewrite map_app in Hnd. simpl in Hnd.
  pose proof (NoDup_remove_2 _ _ _ Hnd) as Hnot.
  split; intros x Hx Hkx; apply Hnot; apply in_or_app; [left|right];
    rewrite <- Hkx; now apply in_map.
Qed.

Lemma filter_unique_key {A} (key : A -> string) (k : string) (l : list A) (u : A) :
  NoDup (map key l) -> In u l -> key u = k ->
  exists l1 l2, l = (l1 ++ u :: l2)%list
    /\ (forall x, In x l1 -> key x <> k) /\ (forall x, In x l2 -> key x <> k).
Proof.
  intros Hnd Hin Hk. apply in_split in Hin. destruct Hin as (l1 & l2 & ->).
  exists l1, l2. split; [reflexivity|]. subst k. now apply NoDup_key_split.
Qed.

Lemma filter_split_one {A} (f : A -> bool) (l1 l2 : list A) (u : A) :
  (forall x, In x l1 -> f x = false) -> (forall x, In x l2 -> f x = false) ->
  f u = true -> filter f (l1 ++ u :: l2) = [u].
Proof.
  intros H1 H2 Hu. rewrite filter_app. simpl. rewrite Hu.
  now rewrite (filter_none f l1 H1), (filter_none f l2 H2).
Qed.

Lemma email_is_true email u : email_is email u = true <-> AppUser.email u = email.
Proof. unfold email_is. apply String.eqb_eq. Qed.

Lemma email_is_false email u : email_is email u = false <-> AppUser.email u <> email.
Proof. unfold email_is. apply String.eqb_neq. Qed.

Lemma fault_at_next (k : nat) (w : World) :
  fault_at (S k) w = fault_at k (with_faults (tl (faults w)) w).
Proof.
  unfold fault_at. simpl. destruct (faults w); simpl; [now destruct k|reflexivity].
Qed.

Ltac served H := unfold await; rewrite (request_served _ _ H); simpl.
Ltac refused H := unfold await; rewrite (request_failed _ _ _ H); simpl.

(** A served lookup: the one user with the e-mail, or nobody. *)
Lemma getUserByEmail_one_or_none (email : string) (w : World) :
  fault_at 0 w = None ->
  (forall u, NoDup (map AppUser.email (AppUsers w)) ->
             In u (AppUsers w) -> AppUser.email u = email ->
             getUserByEmail email w
             = (Returned (Some u), with_faults (tl (faults w)) w))
  /\ ((forall u, In u (AppUsers w) -> AppUser.email u <> email) ->
      getUserByEmail email w = (Returned None, with_faults (tl (faults w)) w)).
Proof.
  intros H0. unfold getUserByEmail, bind. split.
  - intros u Hnd Hin Hu. served H0.
    destruct (filter_unique_key AppUser.email email _ u Hnd Hin Hu)
      as (l1 & l2 & Heq & H1 & H2).
    rewrite Heq, filter_split_one; simpl; auto.
    + intros x Hx. apply email_is_false. auto.
    + intros x Hx. apply email_is_false. auto.
    + now apply email_is_true.
  - intros Hno. served H0. rewrite filter_none; simpl; auto.
    intros x Hx. apply email_is_false. auto.
Qed.

(** C7. [getUserByEmail email], emails identifying users: when the lookup
    is served and a user has that e-mail, it returns that user's row; when
    it is served and no user has it, it returns [null] (here [None]) and
    throws nothing; when the store fails the lookup with an error other
    than "no rows" (PGRST116), it throws that error. *)
Theorem getUserByEmail_spec (email : string) (w : World) :
  let w' := with_faults (tl (faults w)) w in
  (forall u, fault_at 0 w = None ->
             NoDup (map AppUser.email (AppUsers w)) ->
             In u (AppUsers w) -> AppUser.email u = email ->
             getUserByEmail email w = (Returned (Some u), w'))
  /\ (fault_at 0 w = None ->
      (forall u, In u (AppUsers w) -> AppUser.email u <> email) ->
      getUserByEmail email w = (Returned None, w'))
  /\ (forall e, fault_at 0 w = Some e -> code e <> "PGRST116" ->
                getUserByEmail email w = (Threw (Postgrest e), w')).
Proof.
  intros w'. unfold getUserByEmail, bind. repeat split.
  - intros u H0 Hnd Hin Hu. served H0.
    destruct (filter_unique_key AppUser.email email _ u Hnd Hin Hu)
      as (l1 & l2 & Heq & H1 & H2).
    rewrite Heq, filter_split_one; simpl; auto.
    + intros x Hx. apply email_is_false. auto.
    + intros x Hx. apply email_is_false. auto.
    + now apply email_is_true.
  - intros H0 Hno. served H0. rewrite filter_none; simpl; auto.
    intros x Hx. apply email_is_false. auto.
  - intros e H0 Hc. refused H0. apply String.eqb_neq in Hc. now rewrite Hc.
Qed.

Lemma map_split_one {A} (f : A -> bool) (g : A -> A) (l1 l2 : list A) (u : A) :
  (forall x, In x l1 -> f x = false) -> (forall x, In x l2 -> f x = false) ->
  f u = true ->
  map (fun x => if f x then g x else x) (l1 ++ u :: l2)
  = (l1 ++ g u :: l2)%list.
Proof.
  intros H1 H2 Hu. rewrite map_app. simpl. rewrite Hu. f_equal; [|f_equal].
  - rewrite <- (map_id l1) at 2. apply map_ext_in. intros x Hx. now rewrite H1.
  - rewrite <- (map_id l2) at 2. apply map_ext_in. intros x Hx. now rewrite H2.
Qed.

(** C3. [resetPassword email newPassword], the lookup being served: when
    no user has that e-mail it throws "User not found" and both tables are
    as they were; when a user [u] has it (emails identifying users) and the
    update is served, it returns, and [AppUsers] is what it was except that
    the row of [u] now has the password [newPassword] and the status
    [Pending], whatever its status was. *)
Theorem resetPassword_spec (email newPassword : string) (w : World) :
  fault_at 0 w = None ->
  ((forall u, In u (AppUsers w) -> AppUser.email u <> email) ->
   exists w',
     resetPassword email newPassword w = (Threw (JsError "User not found"), w')
     /\ AppUsers w' = AppUsers w
     /\ password_reset_otps w' = password_reset_otps w)
  /\ (forall u,
        NoDup (map AppUser.email (AppUsers w)) ->
        In u (AppUsers w) -> AppUser.email u = email ->
        fault_at 1 w = None ->
        exists l1 l2 w',
          resetPassword email newPassword w = (Returned tt, w')
          /\ AppUsers w = (l1 ++ u :: l2)%list
          /\ AppUsers w'
             = (l1 ++ AppUser.mk (AppUser.full_name u) email newPassword Pending
                   :: l2)%list
          /\ password_reset_otps w' = password_reset_otps w).
Proof.
  intros H0. pose proof (getUserByEmail_one_or_none email w H0) as (Hfound & Hnone).
  split.
  - intros Hno. unfold resetPassword, bind. rewrite (Hnone Hno). simpl.
    eexists. split; [reflexivity|]. split; reflexivity.
  - intros u Hnd Hin Hu H1. unfold resetPassword, bind.
    rewrite (Hfound u Hnd Hin Hu).
    destruct (filter_unique_key AppUser.email email _ u Hnd Hin Hu)
      as (l1 & l2 & Heq & Hl1 & Hl2).
    assert (H1' : fault_at 0 (with_faults (tl (faults w)) w) = None)
      by now rewrite <- fault_at_next.
    served H1'. exists l1, l2. eexists. split; [reflexivity|].
    split; [exact Heq|]. split; [|reflexivity].
    rewrite Heq.
    rewrite (map_split_one (email_is email)
               (fun v => AppUser.mk (AppUser.full_name v) (AppUser.email v)
                                    newPassword Pending)).
    + now rewrite Hu.
    + intros x Hx. apply email_is_false. auto.
    + intros x Hx. apply email_is_false. auto.
    + now apply email_is_true.
Qed.

(** ** The one-time-password table *)

Lemma valid_for_iff email otp now r :
  valid_for email otp now r = true <-> Valid email otp now r.
Proof.
  unfold valid_for, Valid. rewrite !andb_true_iff, !String.eqb_eq, Z.ltb_lt.
  destruct (PasswordResetOtp.used r); simpl; intuition congruence.
Qed.

Lemma valid_for_false email otp now r :
  valid_for email otp now r = false <-> ~ Valid email otp now r.
Proof.
  rewrite <- valid_for_iff. destruct (valid_for email otp now r); intuition congruence.
Qed.

Lemma order_desc_head {A} (key : A -> Z) (l : list A) :
  match order_desc key l with
  | [] => l = []
  | h :: _ => In h l /\ forall y, In y l -> key y <= key h
  end.
Proof.
  induction l as [|x l IH]; simpl; [reflexivity|].
  destruct (order_desc key l) as [|h t]; simpl.
  - subst l. split; [now left|]. intros y [<-|[]]. lia.
  - destruct IH as [Hin Hmax]. destruct (Z.leb_spec (key h) (key x)).
    + split; [now left|]. intros y [<-|Hy]; [lia|]. specialize (Hmax y Hy). lia.
    + split; [now right|]. intros y [<-|Hy]; [lia|]. now apply Hmax.
Qed.

(** What the lookup of [verifyPasswordResetOtp] answers when it is served. *)
Lemma select_newest_valid_spec email otp now w :
  match data (fst (select_newest_valid email otp now w)) with
  | Some row =>
      error (fst (select_newest_valid email otp now w)) = None
      /\ In row (password_reset_otps w) /\ Valid email otp now row
      /\ forall r, In r (password_reset_otps w) -> Valid email otp now r ->
                   PasswordResetOtp.created_at r <= PasswordResetOtp.created_at row
  | None =>
      forall r, In r (password_reset_otps w) -> ~ Valid email otp now r
  end.
Proof.
  unfold select_newest_valid. simpl.
  pose proof (order_desc_head PasswordResetOtp.created_at
                (filter (valid_for email otp now) (password_reset_otps w))) as H.
  destruct (order_desc _ _) as [|h t]; simpl.
  - intros r Hr Hv. apply valid_for_iff in Hv.
    assert (Hin : In r (filter (valid_for email otp now) (password_reset_otps w)))
      by (apply filter_In; auto).
    rewrite H in Hin. exact Hin.
  - destruct H as [Hin Hmax]. apply filter_In in Hin. destruct Hin as [Hin Hv].
    split; [reflexivity|]. split; [exact Hin|]. split; [now apply valid_for_iff|].
    intros r Hr Hvr. apply Hmax. apply filter_In. split; [exact Hr|].
    now apply valid_for_iff.
Qed.

(** With no valid row the verification answers false and writes nothing,
    whether the lookup is served or not. *)
Lemma verify_rejects email otp w :
  (forall r, In r (password_reset_otps w) -> ~ Valid email otp (clock w) r) ->
  verifyPasswordResetOtp email otp w
  = (Returned false, with_faults (tl (faults w)) w).
Proof.
  intros Hno. unfold verifyPasswordResetOtp, bind.
  destruct (fault_at 0 w) as [e|] eqn:H0.
  - refused H0. reflexivity.
  - served H0.
    assert (Hf : filter (valid_for email otp (clock w)) (password_reset_otps w) = []).
    { apply filter_none. intros r Hr. apply valid_for_false. auto. }
    rewrite Hf. reflexivity.
Qed.

Lemma single_data {A} (rows : list A) (row : A) :
  data (single rows) = Some row -> single rows = ok row.
Proof.
  destruct rows as [|r [|r' rows']]; simpl; intros H; try discriminate.
  now injection H as ->.
Qed.

Lemma select_newest_valid_found email otp now w row :
  data (fst (select_newest_valid email otp now w)) = Some row ->
  forall fs,
    select_newest_valid email otp now (with_faults fs w)
    = (ok row, with_faults fs w).
Proof.
  unfold select_newest_valid. simpl. intros H fs. apply single_data in H.
  now rewrite H.
Qed.

(** The lookup found [row]: the outcome is decided by the update. *)
Lemma verify_found email otp w row :
  fault_at 0 w = None ->
  data (fst (select_newest_valid email otp (clock w) w)) = Some row ->
  (fault_at 1 w = None ->
   exists w',
     verifyPasswordResetOtp email otp w = (Returned true, w')
     /\ AppUsers w' = AppUsers w
     /\ password_reset_otps w'
        = mark_used (PasswordResetOtp.id row) (password_reset_otps w)
     /\ clock w' = clock w
     /\ faults w' = tl (tl (faults w)))
  /\ (forall e, fault_at 1 w = Some e ->
      exists w',
        verifyPasswordResetOtp email otp w = (Threw (Postgrest e), w')
        /\ same_tables w w').
Proof.
  intros H0 Hrow.
  pose proof (select_newest_valid_found _ _ _ _ _ Hrow) as Hsel.
  unfold verifyPasswordResetOtp, bind.
  split; [intros H1|intros e H1]; rewrite fault_at_next in H1;
    unfold await at 1; rewrite (request_served _ _ H0), Hsel;
    unfold ok; cbn [error data].
  - served H1. eexists. split; [reflexivity|]. simpl. auto.
  - refused H1. eexists. split; [reflexivity|]. split; reflexivity.
Qed.

Lemma mark_used_In id rows r :
  In r (mark_used id rows) ->
  PasswordResetOtp.used r = true
  \/ (In r rows /\ PasswordResetOtp.id r <> id).
Proof.
  unfold mark_used. rewrite in_map_iff. intros (r0 & Hr & Hin).
  destruct (String.eqb_spec (PasswordResetOtp.id r0) id) as [He|Hne].
  - left. now subst r.
  - right. subst r. auto.
Qed.

Lemma mark_used_split id l1 l2 row :
  NoDup (map PasswordResetOtp.id (l1 ++ row :: l2)) ->
  PasswordResetOtp.id row = id ->
  mark_used id (l1 ++ row :: l2)
  = (l1 ++ PasswordResetOtp.set_used true row :: l2)%list.
Proof.
  intros Hnd Hid. unfold mark_used. subst id.
  destruct (NoDup_key_split PasswordResetOtp.id l1 l2 row Hnd) as [H1 H2].
  apply (map_split_one
           (fun x => String.eqb (PasswordResetOtp.id x) (PasswordResetOtp.id row))
           (PasswordResetOtp.set_used true)).
  - intros x Hx. apply String.eqb_neq. auto.
  - intros x Hx. apply String.eqb_neq. auto.
  - apply String.eqb_refl.
Qed.


(** C4. When every row carrying [(email, otp)] is used or has an
    [expires_at] that is not after the time of the call, the verification
    returns false and leaves both tables as they were, whatever the code
    value and whether or not the store serves the lookup. *)
Theorem verify_expired_or_used (email otp : string) (w : World) :
  (forall r, In r (password_reset_otps w) ->
             PasswordResetOtp.email r = email ->
             PasswordResetOtp.otp r = otp ->
             PasswordResetOtp.used r = true
             \/ PasswordResetOtp.expires_at r <= clock w) ->
  exists w',
    verifyPasswordResetOtp email otp w = (Returned false, w')
    /\ same_tables w w'.
Proof.
  intros H. exists (with_faults (tl (faults w)) w). split; [|split; reflexivity].
  apply verify_rejects. intros r Hr (He & Ho & Hu & Ht).
  destruct (H r Hr He Ho) as [Hused|Hexp]; [congruence|lia].
Qed.

(** C2, as amended.  Let [r] be an unused, unexpired row of the table and
    the only row valid for its [(email, otp)] pair, and let the store
    serve both requests of the call.  Then verifying its code returns true,
    and any later verification with the same e-mail and code returns
    false. *)
Theorem verify_once (r : PasswordResetOtp.t) (w : World) :
  In r (password_reset_otps w) ->
  PasswordResetOtp.used r = false ->
  clock w < PasswordResetOtp.expires_at r ->
  (forall r', In r' (password_reset_otps w) ->
              Valid (PasswordResetOtp.email r) (PasswordResetOtp.otp r)
                    (clock w) r' ->
              r' = r) ->
  fault_at 0 w = None -> fault_at 1 w = None ->
  exists w1,
    verifyPasswordResetOtp (PasswordResetOtp.email r) (PasswordResetOtp.otp r) w
    = (Returned true, w1)
    /\ forall d, 0 <= d ->
         exists w2,
           verifyPasswordResetOtp (PasswordResetOtp.email r)
                                  (PasswordResetOtp.otp r)
                                  (with_clock (clock w1 + d) w1)
           = (Returned false, w2).
Proof.
  intros Hr Hu Ht Honly H0 H1.
  set (email := PasswordResetOtp.email r) in *.
  set (otp := PasswordResetOtp.otp r) in *.
  assert (Hv : Valid email otp (clock w) r) by (repeat split; auto).
  pose proof (select_newest_valid_spec email otp (clock w) w) as Hspec.
  destruct (data (fst (select_newest_valid email otp (clock w) w)))
    as [row|] eqn:Hrow; [|now elim (Hspec r Hr)].
  destruct Hspec as (_ & Hin & Hvalid & _).
  assert (row = r) by now apply Honly. subst row.
  destruct (verify_found email otp w r H0 Hrow) as [Hserved _].
  destruct (Hserved H1) as (w1 & Hrun & _ & Hos & Hclock & _).
  exists w1. split; [exact Hrun|]. intros d Hd. eexists.
  apply verify_rejects. simpl. rewrite Hos, Hclock.
  intros r' Hr' (He' & Ho' & Hu' & Ht').
  apply mark_used_In in Hr'. destruct Hr' as [Hused|[Hr' Hid]]; [congruence|].
  apply Hid. f_equal. apply Honly; [exact Hr'|]. repeat split; auto. lia.
Qed.

(** C5. When the store serves the insertion, [createPasswordResetOtp email
    otp] appends exactly one row to [password_reset_otps] and returns it:
    the row carries [email] and [otp], is unused, was created at the time of
    the call and expires 10 minutes (600000 ms) later.  When the store
    fails the insertion with code 42501 or with a message that contains
    "permission", the call throws the readable permission error, not the
    store's error, and the tables are as they were. *)
Theorem createPasswordResetOtp_spec (email otp : string) (w : World) :
  (fault_at 0 w = None ->
   exists row w',
     createPasswordResetOtp email otp w = (Returned (Some row), w')
     /\ password_reset_otps w' = (password_reset_otps w ++ [row])%list
     /\ AppUsers w' = AppUsers w
     /\ PasswordResetOtp.email row = email
     /\ PasswordResetOtp.otp row = otp
     /\ PasswordResetOtp.used row = false
     /\ PasswordResetOtp.created_at row = clock w
     /\ PasswordResetOtp.expires_at row = clock w + 600000)
  /\ (forall e, fault_at 0 w = Some e ->
      (code e = "42501"
       \/ exists m, message e = Some m /\ includes m "permission" = true) ->
      exists w',
        createPasswordResetOtp email otp w
        = (Threw (JsError permission_message), w')
        /\ same_tables w w').
Proof.
  unfold createPasswordResetOtp, bind. split.
  - intros H0. served H0. do 2 eexists. split; [reflexivity|]. simpl.
    repeat split.
  - intros e H0 Hrls. refused H0.
    assert (Hl : looks_like_rls e = true).
    { unfold looks_like_rls. apply orb_true_iff.
      destruct Hrls as [Hc|(m & Hm & Hi)].
      - left. now apply String.eqb_eq.
      - right. now rewrite Hm. }
    rewrite Hl. eexists. split; [reflexivity|]. split; reflexivity.
Qed.

(** C6. When the store serves the deletion, [cleanupExpiredOtps] returns,
    and afterwards [password_reset_otps] is the table it was with exactly
    the rows whose [expires_at] is strictly before the time of the call
    removed: the rows that remain are the same rows in the same order, and
    [AppUsers] is unchanged. *)
Theorem cleanupExpiredOtps_spec (w : World) :
  fault_at 0 w = None ->
  exists w',
    cleanupExpiredOtps w = (Returned tt, w')
    /\ (forall r, In r (password_reset_otps w') ->
                  clock w <= PasswordResetOtp.expires_at r)
    /\ (forall r, In r (password_reset_otps w) ->
                  clock w <= PasswordResetOtp.expires_at r ->
                  In r (password_reset_otps w'))
    /\ password_reset_otps w'
       = filter (fun r => clock w <=? PasswordResetOtp.expires_at r)
                (password_reset_otps w)
    /\ AppUsers w' = AppUsers w.
Proof.
  intros H0. unfold cleanupExpiredOtps, bind. served H0.
  eexists. split; [reflexivity|]. simpl.
  assert (Hf : forall l : list PasswordResetOtp.t,
             filter (fun r => negb (expired (clock w) r)) l
             = filter (fun r => clock w <=? PasswordResetOtp.expires_at r) l).
  { intros l. apply filter_ext. intros r. unfold expired.
    now rewrite Z.leb_antisym. }
  rewrite Hf. split; [|split; [|split; reflexivity]].
  - intros r Hr. apply filter_In in Hr. destruct Hr as [_ Hr]. lia.
  - intros r Hr Ht. apply filter_In. split; [exact Hr|]. lia.
Qed.

(** ** The controller *)

(** The data-access functions and the mail dispatch do not touch the log of
    calls. *)
Lemma request_calls {A} (q : World -> Response A * World) (w : World) :
  (forall v, calls (snd (q v)) = calls v) ->
  calls (snd (request q w)) = calls w.
Proof.
  intros Hq. unfold request. destruct (faults w) as [|[e|] fs]; simpl.
  - apply Hq.
  - reflexivity.
  - now rewrite Hq.
Qed.

Lemma await_calls {A} (q : World -> Response A * World) (w : World) :
  (forall v, calls (snd (q v)) = calls v) ->
  calls (snd (await q w)) = calls w.
Proof.
  intros Hq. unfold await. pose proof (request_calls q w Hq) as H.
  destruct (request q w). exact H.
Qed.

Lemma bind_calls {A B} (m : Async A) (k : A -> Async B) (w : World) :
  calls (snd (m w)) = calls w ->
  (forall a v, calls (snd (k a v)) = calls v) ->
  calls (snd (bind m k w)) = calls w.
Proof.
  intros Hm Hk. unfold bind. destruct (m w) as [[a|x] w']; simpl in *.
  - now rewrite Hk.
  - exact Hm.
Qed.

Lemma getUserByEmail_calls email w :
  calls (snd (getUserByEmail email w)) = calls w.
Proof.
  unfold getUserByEmail. apply bind_calls.
  - now apply await_calls.
  - intros r v. destruct (error r) as [e|]; [|reflexivity].
    now destruct (String.eqb (code e) "PGRST116").
Qed.

Lemma resetPassword_calls email newPassword w :
  calls (snd (resetPassword email newPassword w)) = calls w.
Proof.
  unfold resetPassword. apply bind_calls.
  - apply getUserByEmail_calls.
  - intros [u|] v; [|reflexivity]. apply bind_calls.
    + now apply await_calls.
    + intros r v'. now destruct (error r).
Qed.

Lemma createPasswordResetOtp_calls email otp w :
  calls (snd (createPasswordResetOtp email otp w)) = calls w.
Proof.
  unfold createPasswordResetOtp. apply bind_calls.
  - now apply await_calls.
  - intros r v. destruct (error r) as [e|]; [|reflexivity].
    now destruct (looks_like_rls e).
Qed.

Lemma verifyPasswordResetOtp_calls email otp w :
  calls (snd (verifyPasswordResetOtp email otp w)) = calls w.
Proof.
  unfold verifyPasswordResetOtp. apply bind_calls.
  - now apply await_calls.
  - intros r v. destruct (error r) as [e|]; [reflexivity|].
    destruct (data r) as [row|]; [|reflexivity]. apply bind_calls.
    + now apply await_calls.
    + intros u v'. now destruct (error u).
Qed.

Lemma generateOtp_calls w :
  exists otp w', generateOtp w = (Returned otp, w') /\ calls w' = calls w.
Proof.
  unfold generateOtp. destruct (entropy w); do 2 eexists; split; reflexivity.
Qed.

Lemma sendOtpEmail_calls email otp w :
  calls (snd (sendOtpEmail email otp w)) = calls w.
Proof.
  unfold sendOtpEmail. now destruct (mail_faults w) as [|[[st tx]|] mf].
Qed.

(** The outcome of a lookup does not depend on the log of calls. *)
Lemma getUserByEmail_traced email cs w :
  getUserByEmail email (with_calls cs w)
  = (fst (getUserByEmail email w), with_calls cs (snd (getUserByEmail email w))).
Proof.
  unfold getUserByEmail, bind, await, request. simpl.
  destruct (faults w) as [|[e|] fs]; simpl.
  - now destruct (single _) as [d [e|]]; simpl;
      [destruct (String.eqb (code e) "PGRST116")|].
  - now destruct (String.eqb (code e) "PGRST116").
  - now destruct (single _) as [d [e|]]; simpl;
      [destruct (String.eqb (code e) "PGRST116")|].
Qed.

Lemma falsy_false s : s <> "" -> falsy s = false.
Proof. intros H. unfold falsy. now apply String.eqb_neq. Qed.

(** C8. In the [otp] step, with a code typed in and no submission pending,
    submitting the form and letting the verification complete ends in a
    state decided by the outcome of [verifyPasswordResetOtp]: true moves
    the controller to [password]; false leaves it in [otp] with the
    "Invalid OTP" notice; a thrown error leaves it in [otp] with an error
    notice.  So the controller reaches [password] only on true. *)
Theorem handleVerifyOtp_transitions (s : State) :
  step (ui s) = Step.otp ->
  isLoading (ui s) = false ->
  FormData.otp (formData (ui s)) <> "" ->
  let fd := formData (ui s) in
  let call := CallVerifyPasswordResetOtp (FormData.email fd) (FormData.otp fd) in
  let result :=
    verifyPasswordResetOtp (FormData.email fd) (FormData.otp fd)
      (with_calls (call :: calls (world s)) (world s)) in
  exists s',
    run s [Submit; Settle] = Some s'
    /\ world s' = snd result
    /\ formData (ui s') = fd
    /\ isLoading (ui s') = false
    /\ match fst result with
       | Returned true =>
           step (ui s') = Step.password /\ notices (ui s') = notices (ui s)
       | Returned false =>
           step (ui s') = Step.otp
           /\ notices (ui s') = notice_invalid_otp :: notices (ui s)
       | Threw _ =>
           step (ui s') = Step.otp
           /\ notices (ui s')
              = notice_error "Failed to verify OTP. Please try again."
                  :: notices (ui s)
       end.
Proof.
  destruct s as [[fd l st ns] infl w]. simpl. intros -> -> Hotp.
  cbn zeta. cbn [run dispatch ui isLoading step formData onSubmit].
  unfold handleVerifyOtp. rewrite (falsy_false _ Hotp).
  cbn [inflight world ui]. unfold try_catch_finally, bind, traced.
  destruct (verifyPasswordResetOtp _ _ _) as [[[|]|x] w']; simpl;
    eexists; split; try reflexivity; simpl; auto.
Qed.

(** C9. In the [email] step, with an address typed in and no submission
    pending, when the user lookup answers "not found" the submission ends
    where it started: the controller is still in [email], the "User Not
    Found" notice is shown, the only call issued is the lookup, and the OTP
    table, the user table and the outbox are what they were after the
    lookup, which writes none of them. *)
Theorem handleSendOtp_user_not_found (s : State) :
  step (ui s) = Step.email ->
  isLoading (ui s) = false ->
  FormData.email (formData (ui s)) <> "" ->
  fst (getUserByEmail (FormData.email (formData (ui s))) (world s))
  = Returned None ->
  exists s',
    run s [Submit; Settle] = Some s'
    /\ step (ui s') = Step.email
    /\ formData (ui s') = formData (ui s)
    /\ isLoading (ui s') = false
    /\ notices (ui s') = notice_user_not_found :: notices (ui s)
    /\ calls (world s')
       = CallGetUserByEmail (FormData.email (formData (ui s)))
           :: calls (world s)
    /\ password_reset_otps (world s') = password_reset_otps (world s)
    /\ AppUsers (world s') = AppUsers (world s)
    /\ outbox (world s') = outbox (world s).
Proof.
  destruct s as [[fd l st ns] infl w]. simpl. intros -> -> Hemail Hnone.
  cbn [run dispatch ui isLoading step formData onSubmit].
  unfold handleSendOtp. rewrite (falsy_false _ Hemail).
  cbn [inflight world ui]. unfold try_catch_finally, bind, traced.
  rewrite getUserByEmail_traced, Hnone. simpl.
  eexists. split; [reflexivity|]. simpl. repeat (split; [reflexivity|]).
  unfold getUserByEmail, bind, await, request.
  destruct (faults w) as [|[e|] fs]; simpl.
  - now destruct (single _) as [d [e|]]; simpl;
      [destruct (String.eqb (code e) "PGRST116")|].
  - now destruct (String.eqb (code e) "PGRST116").
  - now destruct (single _) as [d [e|]]; simpl;
      [destruct (String.eqb (code e) "PGRST116")|].
Qed.

(** What a form's handler does before it suspends. *)
Lemma onSubmit_shape (st : Step.t) (fd : FormData.t) :
  (exists n, onSubmit st fd = Finished [Swal_fire n])
  \/ (exists rest, onSubmit st fd = Suspended [setIsLoading true] rest).
Proof.
  destruct st; simpl.
  - unfold handleSendOtp. destruct (falsy _); eauto.
  - unfold handleVerifyOtp. destruct (falsy _); eauto.
  - unfold handleResetPassword.
    destruct (_ || _); eauto. destruct (negb _); eauto.
Qed.

Ltac log_of lem E :=
  let H := fresh "Hlog" in
  pose proof lem as H; rewrite E in H; simpl in H.

(** What the rest of a form's handler does when its calls complete. *)
Lemma rest_effect (st : Step.t) (fd : FormData.t) us0 rest w us w' c :
  onSubmit st fd = Suspended us0 rest ->
  rest w = (us, w') ->
  step c = st ->
  let c' := apply_updates us c in
  match st with
  | Step.email =>
      formData c' = formData c
      /\ (step c' = Step.email \/ step c' = Step.otp)
      /\ last_lookup (calls w') = Some (FormData.email fd)
      /\ emails_agree (calls w') = emails_agree (calls w)
  | Step.otp =>
      formData c' = formData c
      /\ (step c' = Step.otp \/ step c' = Step.password)
      /\ calls w'
         = CallVerifyPasswordResetOtp (FormData.email fd) (FormData.otp fd)
             :: calls w
  | Step.password =>
      calls w'
      = CallResetPassword (FormData.email fd) (FormData.newPassword fd)
          :: calls w
      /\ ((formData c' = formData c /\ step c' = Step.password)
          \/ (formData c' = FormData.empty /\ step c' = Step.email))
  end.
Proof.
  intros Hh Hrest Hst c'. subst c'. destruct c as [cfd l cst ns].
  simpl in Hst. subst cst. destruct st; simpl in Hh.
  - unfold handleSendOtp in Hh. destruct (falsy _); [discriminate|].
    injection Hh as _ <-. unfold try_catch_finally, bind, traced in Hrest.
    destruct (getUserByEmail _ _) as [[[u|]|x] w1] eqn:E1;
      log_of (getUserByEmail_calls (FormData.email fd)
                (with_calls (CallGetUserByEmail (FormData.email fd) :: calls w) w))
             E1.
    + destruct (generateOtp_calls w1) as (otp & w2 & E2 & C2).
      rewrite E2 in Hrest.
      destruct (createPasswordResetOtp _ _ _) as [[r|x] w3] eqn:E3;
        log_of (createPasswordResetOtp_calls (FormData.email fd) otp
                  (with_calls (CallCreatePasswordResetOtp (FormData.email fd) otp
                                 :: calls w2) w2))
               E3.
      * destruct (sendOtpEmail _ _ _) as [[[]|x] w4] eqn:E4;
          log_of (sendOtpEmail_calls (FormData.email fd) otp
                    (with_calls (CallSendOtpEmail (FormData.email fd) otp
                                   :: calls w3) w3))
                 E4;
          injection Hrest as <- <-; simpl;
          rewrite Hlog1, Hlog0, C2, Hlog; simpl; auto.
      * injection Hrest as <- <-; simpl.
        rewrite Hlog0, C2, Hlog; simpl; auto.
    + injection Hrest as <- <-; simpl. rewrite Hlog; simpl; auto.
    + injection Hrest as <- <-; simpl. rewrite Hlog; simpl; auto.
  - unfold handleVerifyOtp in Hh. destruct (falsy _); [discriminate|].
    injection Hh as _ <-. unfold try_catch_finally, bind, traced in Hrest.
    destruct (verifyPasswordResetOtp _ _ _) as [[[|]|x] w1] eqn:E1;
      log_of (verifyPasswordResetOtp_calls (FormData.email fd) (FormData.otp fd)
                (with_calls (CallVerifyPasswordResetOtp (FormData.email fd)
                               (FormData.otp fd) :: calls w) w))
             E1;
      injection Hrest as <- <-; simpl; auto.
  - unfold handleResetPassword in Hh.
    destruct (_ || _); [discriminate|]. destruct (negb _); [discriminate|].
    injection Hh as _ <-. unfold try_catch_finally, bind, traced in Hrest.
    destruct (resetPassword _ _ _) as [[[]|x] w1] eqn:E1;
      log_of (resetPassword_calls (FormData.email fd) (FormData.newPassword fd)
                (with_calls (CallResetPassword (FormData.email fd)
                               (FormData.newPassword fd) :: calls w) w))
             E1;
      injection Hrest as <- <-; simpl; auto.
Qed.

Lemma owned_weaken (P Q : FormData.t -> Prop) (s : State) :
  (forall fd, P fd -> Q fd) -> owned P s -> owned Q s.
Proof.
  unfold owned. destruct (inflight s) as [rest|]; [|trivial].
  intros HPQ (fd & us & HP & Hh). exists fd, us. auto.
Qed.

Lemma handleInputChange_email name value fd :
  name <> Field.email ->
  FormData.email (handleInputChange name value fd) = FormData.email fd.
Proof. destruct name; simpl; congruence. Qed.

Lemma rendered_email st : rendered st Field.email = true -> st = Step.email.
Proof. destruct st; simpl; congruence. Qed.

(** Every event keeps the suspended handler that of the current step. *)
Lemma dispatch_owned (s s' : State) (ev : Event) :
  owned (fun _ => True) s -> dispatch s ev = Some s' ->
  owned (fun _ => True) s'.
Proof.
  destruct s as [[fd l st ns] infl w]. unfold owned. simpl.
  intros Hown Hd. destruct ev as [name value| | |d]; simpl in Hd.
  - destruct (rendered st name); [|discriminate]. now injection Hd as <-.
  - destruct l; [discriminate|].
    destruct (onSubmit_shape st fd) as [(n & Hh)|(rest & Hh)];
      rewrite Hh in Hd; injection Hd as <-; simpl; [exact Hown|].
    exists fd, [setIsLoading true]. auto.
  - destruct infl as [rest|]; [|discriminate].
    destruct (rest w) as [us w']. now injection Hd as <-.
  - destruct (0 <=? d); [|discriminate]. now injection Hd as <-.
Qed.

(** Outside the [email] step an event leaves the e-mail field as it was,
    unless it is the completion of the flow, which clears the form. *)
Lemma dispatch_email_fixed (s s' : State) (ev : Event) :
  owned (fun _ => True) s ->
  step (ui s) <> Step.email ->
  dispatch s ev = Some s' ->
  FormData.email (formData (ui s')) = FormData.email (formData (ui s))
  \/ (step (ui s') = Step.email /\ formData (ui s') = FormData.empty).
Proof.
  destruct s as [[fd l st ns] infl w]. unfold owned. simpl.
  intros Hown Hst Hd. destruct ev as [name value| | |d]; simpl in Hd.
  - destruct (rendered st name) eqn:Hr; [|discriminate].
    injection Hd as <-. simpl. left. apply handleInputChange_email.
    intros ->. now apply rendered_email in Hr.
  - destruct l; [discriminate|].
    destruct (onSubmit_shape st fd) as [(n & Hh)|(rest & Hh)];
      rewrite Hh in Hd; injection Hd as <-; simpl; auto.
  - destruct infl as [rest|]; [|discriminate].
    destruct Hown as (cfd & us0 & _ & Hh).
    destruct (rest w) as [us w'] eqn:Hrest. injection Hd as <-. simpl.
    pose proof (rest_effect st cfd us0 rest w us w'
                  (mkComponent fd l st ns) Hh Hrest eq_refl) as He.
    destruct st; [congruence| |]; simpl in He.
    + left. now rewrite (proj1 He).
    + destruct He as (_ & [[-> _]|[-> ->]]); auto.
  - destruct (0 <=? d); [|discriminate]. injection Hd as <-. auto.
Qed.

Lemma is_lookup_of_refl e : is_lookup_of e (Some e) = true.
Proof. simpl. apply String.eqb_refl. Qed.

(** An event of a quiet run keeps the invariant. *)
Lemma dispatch_Inv (s s' : State) (ev : Event) :
  Inv s -> quiet s ev = true -> dispatch s ev = Some s' -> Inv s'.
Proof.
  destruct s as [[fd l st ns] infl w]. unfold Inv, owned, quiet. simpl.
  intros (Hag & Hlast & Hown) Hq Hd.
  destruct ev as [name value| | |d]; simpl in Hd.
  - destruct (rendered st name) eqn:Hr; [|discriminate].
    injection Hd as <-. simpl. split; [exact Hag|].
    destruct name.
    + apply rendered_email in Hr. subst st.
      destruct infl; [discriminate|]. split; [congruence|trivial].
    + simpl. auto.
    + simpl. auto.
    + simpl. auto.
  - destruct l; [discriminate|].
    destruct (onSubmit_shape st fd) as [(n & Hh)|(rest & Hh)];
      rewrite Hh in Hd; injection Hd as <-; simpl; auto.
    split; [exact Hag|]. split; [exact Hlast|].
    exists fd, [setIsLoading true]. auto.
  - destruct infl as [rest|]; [|discriminate].
    destruct Hown as (cfd & us0 & Hcfd & Hh).
    destruct (rest w) as [us w'] eqn:Hrest. injection Hd as <-. simpl.
    pose proof (rest_effect st cfd us0 rest w us w'
                  (mkComponent fd l st ns) Hh Hrest eq_refl) as He.
    destruct st; simpl in He.
    + destruct He as (Hfd & _ & Hl & Ha). rewrite Ha, Hfd, Hl, Hcfd. auto.
    + destruct He as (Hfd & Hs & Hc). rewrite Hc, Hfd. simpl.
      rewrite (Hlast ltac:(discriminate)), Hcfd, is_lookup_of_refl, Hag. auto.
    + destruct He as (Hc & Hs). rewrite Hc. simpl.
      rewrite (Hlast ltac:(discriminate)), Hcfd, is_lookup_of_refl, Hag.
      split; [reflexivity|]. split; [|trivial].
      destruct Hs as [[-> _]|[_ ->]]; [auto|congruence].
  - destruct (0 <=? d); [|discriminate]. injection Hd as <-. simpl. auto.
Qed.

Lemma run_owned (evs : list Event) (s s' : State) :
  owned (fun _ => True) s -> run s evs = Some s' -> owned (fun _ => True) s'.
Proof.
  revert s. induction evs as [|ev evs IH]; simpl; intros s Hown Hrun.
  - now injection Hrun as <-.
  - destruct (dispatch s ev) as [s1|] eqn:Hd; [|discriminate].
    apply (IH s1); [|exact Hrun]. exact (dispatch_owned s s1 ev Hown Hd).
Qed.

Lemma run_Inv (evs : list Event) (s s' : State) :
  Inv s -> all_quiet s evs = true -> run s evs = Some s' -> Inv s'.
Proof.
  revert s. induction evs as [|ev evs IH]; simpl; intros s HI Hq Hrun.
  - now injection Hrun as <-.
  - destruct (dispatch s ev) as [s1|] eqn:Hd; [|discriminate].
    apply andb_true_iff in Hq. destruct Hq as [Hq1 Hq2].
    apply (IH s1); [|exact Hq2|exact Hrun]. exact (dispatch_Inv s s1 ev HI Hq1 Hd).
Qed.

(** C10, as amended.  In every state a run of the controller can reach,
    an event that happens outside the [email] step leaves the e-mail field
    of the form as it was, unless the event completes the flow, which
    clears the form and returns to [email].  And if in the run the e-mail
    input was never edited while a submission was suspended at its awaited
    calls, then every [verifyPasswordResetOtp] and every [resetPassword] in
    the log was called with the e-mail of the user lookup before it. *)
Theorem email_fixed_after_lookup (w0 : World) (evs : list Event) (s : State) :
  calls w0 = [] ->
  run (initial w0) evs = Some s ->
  (forall ev s',
     step (ui s) <> Step.email -> dispatch s ev = Some s' ->
     FormData.email (formData (ui s')) = FormData.email (formData (ui s))
     \/ (step (ui s') = Step.email /\ formData (ui s') = FormData.empty))
  /\ (all_quiet (initial w0) evs = true ->
      emails_agree (calls (world s)) = true).
Proof.
  intros Hlog Hrun. split.
  - intros ev s' Hst Hd. apply (dispatch_email_fixed s s' ev); auto.
    apply (run_owned evs (initial w0)); [exact I|exact Hrun].
  - intros Hq.
    assert (HI : Inv (initial w0)).
    { unfold Inv, owned. simpl. rewrite Hlog. repeat split. congruence. }
    exact (proj1 (run_Inv evs (initial w0) s HI Hq Hrun)).
Qed.

(** * The theorems at sample inputs *)

Ltac none_has_email :=
  let u := fresh "u" in
  intros u; simpl; intros [<-|[<-|[]]]; discriminate.

Lemma sample_emails_unique : NoDup (map AppUser.email [Sample.alice; Sample.bob]).
Proof.
  repeat constructor; simpl; intuition discriminate.
Qed.

(** C7 at samples: a lookup that finds alice, one that finds nobody, one
    that the store fails. *)
Lemma getUserByEmail_spec_witness :
  getUserByEmail "a@x.com" (Sample.world [] [])
  = (Returned (Some Sample.alice), Sample.world [] [])
  /\ fst (getUserByEmail "missing@x.com" (Sample.world [] [])) = Returned None
  /\ fst (getUserByEmail "a@x.com" (Sample.world [] [Some Sample.outage]))
     = Threw (Postgrest Sample.outage).
Proof.
  split; [|split].
  - apply (proj1 (getUserByEmail_spec "a@x.com" (Sample.world [] []))).
    + reflexivity.
    + exact sample_emails_unique.
    + simpl. auto.
    + reflexivity.
  - rewrite (proj1 (proj2 (getUserByEmail_spec "missing@x.com"
                             (Sample.world [] [])))).
    + reflexivity.
    + reflexivity.
    + none_has_email.
  - rewrite (proj2 (proj2 (getUserByEmail_spec "a@x.com"
                             (Sample.world [] [Some Sample.outage])))
               Sample.outage).
    + reflexivity.
    + reflexivity.
    + simpl. discriminate.
Defined.

(** C3 at samples: alice, approved, resets her password; nobody has the
    other address. *)
Lemma resetPassword_spec_witness :
  (exists l1 l2 w',
     resetPassword "a@x.com" "NewPass1!" (Sample.world [] []) = (Returned tt, w')
     /\ AppUsers (Sample.world [] []) = (l1 ++ Sample.alice :: l2)%list
     /\ AppUsers w'
        = (l1 ++ AppUser.mk "Alice" "a@x.com" "NewPass1!" Pending :: l2)%list
     /\ password_reset_otps w' = password_reset_otps (Sample.world [] []))
  /\ (exists w',
        resetPassword "missing@x.com" "NewPass1!" (Sample.world [] [])
        = (Threw (JsError "User not found"), w')
        /\ AppUsers w' = AppUsers (Sample.world [] [])
        /\ password_reset_otps w' = password_reset_otps (Sample.world [] [])).
Proof.
  split.
  - apply (proj2 (resetPassword_spec "a@x.com" "NewPass1!" (Sample.world [] [])
                    eq_refl) Sample.alice).
    + exact sample_emails_unique.
    + simpl. auto.
    + reflexivity.
    + reflexivity.
  - apply (proj1 (resetPassword_spec "missing@x.com" "NewPass1!"
                    (Sample.world [] []) eq_refl)).
    none_has_email.
Defined.

(** C5 at samples: a served insertion, and two failures that look like a
    policy rejection, one by its code and one by its message. *)
Lemma createPasswordResetOtp_spec_witness :
  (exists row w',
     createPasswordResetOtp "a@x.com" "123456" (Sample.world [Sample.stale] [])
     = (Returned (Some row), w')
     /\ password_reset_otps w' = [Sample.stale; row]
     /\ PasswordResetOtp.used row = false
     /\ PasswordResetOtp.expires_at row = Sample.noon + 600000)
  /\ fst (createPasswordResetOtp "a@x.com" "123456"
            (Sample.world [] [Some Sample.rls]))
     = Threw (JsError permission_message)
  /\ fst (createPasswordResetOtp "a@x.com" "123456"
            (Sample.world [] [Some Sample.denied]))
     = Threw (JsError permission_message).
Proof.
  split; [|split].
  - destruct (proj1 (createPasswordResetOtp_spec "a@x.com" "123456"
                       (Sample.world [Sample.stale] [])) eq_refl)
      as (row & w' & Hrun & Hos & _ & _ & _ & Hu & _ & He).
    exists row, w'. auto.
  - destruct (proj2 (createPasswordResetOtp_spec "a@x.com" "123456"
                       (Sample.world [] [Some Sample.rls]))
                Sample.rls eq_refl (or_introl eq_refl))
      as (w' & Hrun & _).
    now rewrite Hrun.
  - destruct (proj2 (createPasswordResetOtp_spec "a@x.com" "123456"
                       (Sample.world [] [Some Sample.denied]))
                Sample.denied eq_refl
                (or_intror (ex_intro _ "permission denied for table"
                                     (conj eq_refl eq_refl))))
      as (w' & Hrun & _).
    now rewrite Hrun.
Defined.

(** C6 at samples: of an expired and an unexpired row the cleanup keeps
    the unexpired one. *)
Lemma cleanupExpiredOtps_spec_witness :
  fault_at 0 (Sample.world [Sample.stale; Sample.fresh] []) = None
  /\ exists w',
       cleanupExpiredOtps (Sample.world [Sample.stale; Sample.fresh] [])
       = (Returned tt, w')
       /\ password_reset_otps w' = [Sample.fresh]
       /\ AppUsers w' = [Sample.alice; Sample.bob].
Proof.
  split; [reflexivity|].
  destruct (cleanupExpiredOtps_spec
              (Sample.world [Sample.stale; Sample.fresh] []) eq_refl)
    as (w' & Hrun & _ & _ & Hos & Hus).
  exists w'. auto.
Defined.



(** C4 at samples: the right code, on a row that has expired and on a row
    that is used and not yet expired. *)
Lemma verify_expired_or_used_witness :
  exists w',
    verifyPasswordResetOtp "a@x.com" "123456"
      (Sample.world [Sample.stale; Sample.spent] [])
    = (Returned false, w')
    /\ password_reset_otps w' = [Sample.stale; Sample.spent].
Proof.
  destruct (verify_expired_or_used "a@x.com" "123456"
              (Sample.world [Sample.stale; Sample.spent] []))
    as (w' & Hrun & _ & Hos).
  - intros r [<-|[<-|[]]] _ _; simpl.
    + right. unfold Sample.noon. lia.
    + left. reflexivity.
  - exists w'. auto.
Defined.

(** C2 as stated, refuted: with two unused, unexpired rows for the same
    e-mail and code, the first verification marks the newer one and the
    second verification succeeds too. *)
Lemma second_verification_succeeds :
  exists w1 w2,
    verifyPasswordResetOtp "a@x.com" "123456"
      (Sample.world [Sample.fresh; Sample.twin] [])
    = (Returned true, w1)
    /\ password_reset_otps w1
       = [Sample.fresh; PasswordResetOtp.set_used true Sample.twin]
    /\ verifyPasswordResetOtp "a@x.com" "123456" w1 = (Returned true, w2).
Proof.
  do 2 eexists. split; [reflexivity|]. split; reflexivity.
Qed.

(** C2, amended, at samples: [fresh] is the only valid row for its pair. *)
Lemma verify_once_witness :
  exists w1,
    verifyPasswordResetOtp "a@x.com" "123456"
      (Sample.world [Sample.stale; Sample.fresh; Sample.spent] [])
    = (Returned true, w1)
    /\ forall d, 0 <= d ->
         exists w2,
           verifyPasswordResetOtp "a@x.com" "123456"
             (with_clock (clock w1 + d) w1)
           = (Returned false, w2).
Proof.
  apply (verify_once Sample.fresh
           (Sample.world [Sample.stale; Sample.fresh; Sample.spent] [])).
  - simpl. auto.
  - reflexivity.
  - reflexivity.
  - intros r' [<-|[<-|[<-|[]]]] (_ & _ & Hu & Ht); simpl in *.
    + unfold Sample.noon in Ht. lia.
    + reflexivity.
    + discriminate.
  - reflexivity.
  - reflexivity.
Defined.

(** C8 at samples: the same submission in the [otp] step with the store
    serving both requests, failing the lookup, and failing the update. *)
Lemma handleVerifyOtp_transitions_witness :
  (exists s', run (Sample.at_otp []) [Submit; Settle] = Some s'
              /\ step (ui s') = Step.password)
  /\ (exists s', run (Sample.at_otp [Some Sample.outage]) [Submit; Settle]
                 = Some s'
                 /\ step (ui s') = Step.otp
                 /\ notices (ui s') = [notice_invalid_otp])
  /\ (exists s', run (Sample.at_otp [None; Some Sample.outage]) [Submit; Settle]
                 = Some s'
                 /\ step (ui s') = Step.otp
                 /\ notices (ui s')
                    = [notice_error "Failed to verify OTP. Please try again."]).
Proof.
  assert (Hotp : FormData.otp (formData (ui (Sample.at_otp []))) <> "")
    by discriminate.
  split; [|split].
  - destruct (handleVerifyOtp_transitions (Sample.at_otp [])
                eq_refl eq_refl Hotp)
      as (s' & Hrun & _ & _ & _ & Hm).
    exists s'. split; [exact Hrun|]. exact (proj1 Hm).
  - destruct (handleVerifyOtp_transitions (Sample.at_otp [Some Sample.outage])
                eq_refl eq_refl Hotp)
      as (s' & Hrun & _ & _ & _ & Hm).
    exists s'. split; [exact Hrun|]. exact Hm.
  - destruct (handleVerifyOtp_transitions
                (Sample.at_otp [None; Some Sample.outage])
                eq_refl eq_refl Hotp)
      as (s' & Hrun & _ & _ & _ & Hm).
    exists s'. split; [exact Hrun|]. exact Hm.
Defined.

(** C9 at samples: a reset requested for an address nobody has. *)
Lemma handleSendOtp_user_not_found_witness :
  exists s',
    run (Sample.at_email "missing@x.com") [Submit; Settle] = Some s'
    /\ step (ui s') = Step.email
    /\ notices (ui s') = [notice_user_not_found]
    /\ calls (world s') = [CallGetUserByEmail "missing@x.com"]
    /\ password_reset_otps (world s') = []
    /\ outbox (world s') = [].
Proof.
  assert (Hemail : FormData.email (formData (ui (Sample.at_email "missing@x.com")))
                   <> "") by discriminate.
  destruct (handleSendOtp_user_not_found (Sample.at_email "missing@x.com")
              eq_refl eq_refl Hemail eq_refl)
    as (s' & Hrun & Hst & _ & _ & Hns & Hcs & Hos & _ & Hob).
  exists s'. repeat split; assumption.
Defined.

(** C10 as stated, refuted: the address is changed to bob's while the
    lookup of alice's is awaited; the code is then verified, and the
    password reset, for bob's address, which was never looked up. *)
Lemma email_edited_while_lookup_awaited :
  match run (initial (Sample.world [Sample.for_bob] [])) Sample.race with
  | Some s =>
    calls (world s)
       = [CallResetPassword "b@x.com" "NewPass1!";
          CallVerifyPasswordResetOtp "b@x.com" "123456";
          CallSendOtpEmail "a@x.com" "123456";
          CallCreatePasswordResetOtp "a@x.com" "123456";
          CallGetUserByEmail "a@x.com"]
    /\ emails_agree (calls (world s)) = false
    /\ AppUsers (world s)
       = [Sample.alice; AppUser.mk "Bob" "b@x.com" "NewPass1!" Pending]
  | None => False
  end.
Proof.
  vm_compute. repeat split.
Qed.

(** C10, amended, at samples: the flow with the address typed once. *)
Lemma email_fixed_after_lookup_witness :
  calls (Sample.world [] []) = []
  /\ exists s,
       run (initial (Sample.world [] [])) Sample.calm = Some s
       /\ all_quiet (initial (Sample.world [] [])) Sample.calm = true
       /\ emails_agree (calls (world s)) = true.
Proof.
  split; [reflexivity|].
  destruct (run (initial (Sample.world [] [])) Sample.calm) as [s|] eqn:Hrun;
    [|vm_compute in Hrun; discriminate Hrun].
  exists s. split; [reflexivity|]. split; [vm_compute; reflexivity|].
  exact (proj2 (email_fixed_after_lookup (Sample.world [] []) Sample.calm s
                  eq_refl Hrun) (eq_refl true)).
Defined.

(** * Further properties of the data-access layer *)

(** What a served lookup answers, by the number of rows with the e-mail. *)
Lemma getUserByEmail_served email w :
  fault_at 0 w = None ->
  getUserByEmail email w
  = (Returned match filter (email_is email) (AppUsers w) with
              | [u] => Some u
              | _ => None
              end,
     with_faults (tl (faults w)) w).
Proof.
  intros H0. unfold getUserByEmail, bind. served H0.
  now destruct (filter (email_is email) (AppUsers w)) as [|u [|u' l]].
Qed.

Lemma getUserByEmail_refused email w e :
  fault_at 0 w = Some e ->
  getUserByEmail email w
  = (if String.eqb (code e) "PGRST116" then Returned None
     else Threw (Postgrest e),
     with_faults (tl (faults w)) w).
Proof.
  intros H0. unfold getUserByEmail, bind. refused H0.
  now destruct (String.eqb (code e) "PGRST116").
Qed.

Lemma filter_email_none email (l : list AppUser.t) :
  (forall u, In u l -> AppUser.email u <> email) ->
  filter (email_is email) l = [].
Proof.
  intros H. apply filter_none. intros u Hu. apply email_is_false. auto.
Qed.

Lemma filter_email_one email (l1 l2 : list AppUser.t) u :
  (forall x, In x l1 -> AppUser.email x <> email) ->
  (forall x, In x l2 -> AppUser.email x <> email) ->
  AppUser.email u = email ->
  filter (email_is email) (l1 ++ u :: l2) = [u].
Proof.
  intros H1 H2 Hu. apply filter_split_one.
  - intros x Hx. apply email_is_false. auto.
  - intros x Hx. apply email_is_false. auto.
  - now apply email_is_true.
Qed.

(** X1. Registration and lookup round trip: when no user has the e-mail
    yet and the store serves both requests, [addUser] appends one row with
    the given name, e-mail and password and the status [Pending], returns
    it, and a lookup of that e-mail then returns the same row. *)
Theorem addUser_then_getUserByEmail (user : NewUser.t) (w : World) :
  fault_at 0 w = None -> fault_at 1 w = None ->
  (forall u, In u (AppUsers w) -> AppUser.email u <> NewUser.email user) ->
  let row := AppUser.mk (NewUser.full_name user) (NewUser.email user)
                        (NewUser.password user) Pending in
  exists w1 w2,
    addUser user w = (Returned (Some row), w1)
    /\ AppUsers w1 = (AppUsers w ++ [row])%list
    /\ password_reset_otps w1 = password_reset_otps w
    /\ getUserByEmail (NewUser.email user) w1 = (Returned (Some row), w2)
    /\ same_tables w1 w2.
Proof.
  intros H0 H1 Hnew row. rewrite fault_at_next in H1.
  unfold addUser, bind. served H0. fold row.
  eexists. eexists. split; [reflexivity|]. split; [reflexivity|].
  split; [reflexivity|].
  rewrite getUserByEmail_served by exact H1. simpl.
  assert (Hone : filter (email_is (NewUser.email user)) (AppUsers w ++ [row])
                 = [row]).
  { apply filter_email_one; [exact Hnew|intros x []|reflexivity]. }
  rewrite Hone. split; [reflexivity|]. split; reflexivity.
Qed.

(** The row-wise update of the user carrying [email], the others kept. *)
Lemma update_one_user email (g : AppUser.t -> AppUser.t) l1 l2 u :
  (forall x, In x l1 -> AppUser.email x <> email) ->
  (forall x, In x l2 -> AppUser.email x <> email) ->
  AppUser.email u = email ->
  map (fun x => if email_is email x then g x else x) (l1 ++ u :: l2)
  = (l1 ++ g u :: l2)%list.
Proof.
  intros H1 H2 Hu. apply map_split_one.
  - intros x Hx. apply email_is_false. auto.
  - intros x Hx. apply email_is_false. auto.
  - now apply email_is_true.
Qed.

(** A served [resetPassword] for the one user with the e-mail. *)
Lemma resetPassword_served email newPassword w l1 l2 u :
  fault_at 0 w = None -> fault_at 1 w = None ->
  AppUsers w = (l1 ++ u :: l2)%list ->
  (forall x, In x l1 -> AppUser.email x <> email) ->
  (forall x, In x l2 -> AppUser.email x <> email) ->
  AppUser.email u = email ->
  exists w',
    resetPassword email newPassword w = (Returned tt, w')
    /\ AppUsers w'
       = (l1 ++ AppUser.mk (AppUser.full_name u) email newPassword Pending
             :: l2)%list
    /\ password_reset_otps w' = password_reset_otps w
    /\ faults w' = tl (tl (faults w))
    /\ clock w' = clock w.
Proof.
  intros H0 H1 Heq Hl1 Hl2 Hu. rewrite fault_at_next in H1.
  unfold resetPassword, bind. rewrite getUserByEmail_served by exact H0.
  rewrite Heq, filter_email_one by assumption.
  served H1. eexists. split; [reflexivity|]. simpl. rewrite Heq.
  rewrite (update_one_user email
             (fun v => AppUser.mk (AppUser.full_name v) (AppUser.email v)
                                  newPassword Pending)) by assumption.
  rewrite Hu. auto.
Qed.

(** X2. [updateUserStatus], served, always returns: when no user has the
    e-mail it changes nothing and reports no error; when one user has it
    (emails identifying users) only the status of that row changes.  The
    OTP table is never touched. *)
Theorem updateUserStatus_spec (email : string) (status : Status) (w : World) :
  fault_at 0 w = None ->
  exists w',
    updateUserStatus email status w = (Returned tt, w')
    /\ password_reset_otps w' = password_reset_otps w
    /\ ((forall u, In u (AppUsers w) -> AppUser.email u <> email) ->
        AppUsers w' = AppUsers w)
    /\ (forall u, NoDup (map AppUser.email (AppUsers w)) ->
          In u (AppUsers w) -> AppUser.email u = email ->
          exists l1 l2,
            AppUsers w = (l1 ++ u :: l2)%list
            /\ AppUsers w'
               = (l1 ++ AppUser.mk (AppUser.full_name u) (AppUser.email u)
                                   (AppUser.password u) status :: l2)%list).
Proof.
  intros H0. unfold updateUserStatus, bind. served H0.
  eexists. split; [reflexivity|]. simpl. split; [reflexivity|]. split.
  - intros Hno. rewrite <- (map_id (AppUsers w)) at 2. apply map_ext_in.
    intros u Hu. now rewrite (proj2 (email_is_false email u) (Hno u Hu)).
  - intros u Hnd Hin Hu.
    destruct (filter_unique_key AppUser.email email _ u Hnd Hin Hu)
      as (l1 & l2 & Heq & Hl1 & Hl2).
    exists l1, l2. split; [exact Heq|]. rewrite Heq.
    now apply (update_one_user email
                 (fun v => AppUser.mk (AppUser.full_name v) (AppUser.email v)
                                      (AppUser.password v) status)).
Qed.

(** X3. Reset and lookup round trip: after a served [resetPassword] for
    the user with the e-mail (emails identifying users), a lookup of that
    e-mail returns the user's row with the new password and the status
    [Pending], the name unchanged. *)
Theorem resetPassword_then_getUserByEmail
    (email newPassword : string) (u : AppUser.t) (w : World) :
  NoDup (map AppUser.email (AppUsers w)) ->
  In u (AppUsers w) -> AppUser.email u = email ->
  fault_at 0 w = None -> fault_at 1 w = None -> fault_at 2 w = None ->
  exists w1 w2,
    resetPassword email newPassword w = (Returned tt, w1)
    /\ getUserByEmail email w1
       = (Returned (Some (AppUser.mk (AppUser.full_name u) email
                                     newPassword Pending)), w2).
Proof.
  intros Hnd Hin Hu H0 H1 H2.
  destruct (filter_unique_key AppUser.email email _ u Hnd Hin Hu)
    as (l1 & l2 & Heq & Hl1 & Hl2).
  destruct (resetPassword_served email newPassword w l1 l2 u
              H0 H1 Heq Hl1 Hl2 Hu) as (w1 & Hrun & Hus & _ & Hfs & _).
  exists w1. eexists. split; [exact Hrun|].
  rewrite getUserByEmail_served.
  - rewrite Hus, filter_email_one by auto. reflexivity.
  - unfold fault_at in *. rewrite Hfs.
    destruct (faults w) as [|f0 [|f1 fs]]; simpl in *; auto.
Qed.

(** X4. Re-approval: a served [resetPassword] followed by a served
    [updateUserStatus] to [Approved] leaves the user's row with the new
    password and the status [Approved], and every other row as it was. *)
Theorem resetPassword_then_approve
    (email newPassword : string) (u : AppUser.t) (w : World) :
  NoDup (map AppUser.email (AppUsers w)) ->
  In u (AppUsers w) -> AppUser.email u = email ->
  fault_at 0 w = None -> fault_at 1 w = None -> fault_at 2 w = None ->
  exists l1 l2 w1 w2,
    resetPassword email newPassword w = (Returned tt, w1)
    /\ updateUserStatus email Approved w1 = (Returned tt, w2)
    /\ AppUsers w = (l1 ++ u :: l2)%list
    /\ AppUsers w2
       = (l1 ++ AppUser.mk (AppUser.full_name u) email newPassword Approved
             :: l2)%list.
Proof.
  intros Hnd Hin Hu H0 H1 H2.
  destruct (filter_unique_key AppUser.email email _ u Hnd Hin Hu)
    as (l1 & l2 & Heq & Hl1 & Hl2).
  destruct (resetPassword_served email newPassword w l1 l2 u
              H0 H1 Heq Hl1 Hl2 Hu) as (w1 & Hrun & Hus & _ & Hfs & _).
  exists l1, l2, w1.
  assert (H2' : fault_at 0 w1 = None).
  { unfold fault_at in *. rewrite Hfs.
    destruct (faults w) as [|f0 [|f1 fs]]; simpl in *; auto. }
  unfold updateUserStatus, bind. served H2'.
  eexists. split; [exact Hrun|]. split; [reflexivity|]. split; [exact Heq|].
  simpl. rewrite Hus.
  now rewrite (update_one_user email
                 (fun v => AppUser.mk (AppUser.full_name v) (AppUser.email v)
                                      (AppUser.password v) Approved)).
Qed.

(** X5. [resetPassword] writes nothing when it fails: a lookup failed with
    an error other than PGRST116 is rethrown; a lookup failed with PGRST116
    is taken for an absent user; a failed update, the user found, is
    rethrown.  In each case both tables are as they were. *)
Theorem resetPassword_failures (email newPassword : string) (w : World) :
  (forall e, fault_at 0 w = Some e ->
     exists w',
       resetPassword email newPassword w
       = (Threw (if String.eqb (code e) "PGRST116"
                 then JsError "User not found" else Postgrest e), w')
       /\ same_tables w w')
  /\ (forall e u, fault_at 0 w = None ->
        filter (email_is email) (AppUsers w) = [u] ->
        fault_at 1 w = Some e ->
        exists w',
          resetPassword email newPassword w = (Threw (Postgrest e), w')
          /\ same_tables w w').
Proof.
  split.
  - intros e H0. unfold resetPassword, bind.
    rewrite (getUserByEmail_refused _ _ _ H0).
    destruct (String.eqb (code e) "PGRST116");
      eexists; (split; [reflexivity|split; reflexivity]).
  - intros e u H0 Hone H1. rewrite fault_at_next in H1.
    unfold resetPassword, bind. rewrite getUserByEmail_served by exact H0.
    rewrite Hone. refused H1.
    eexists. split; [reflexivity|]. split; reflexivity.
Qed.

(** X6. The lookup tells "no row" and "several rows" apart from nothing:
    when the number of users carrying the e-mail is not one, a served
    [getUserByEmail] returns [null], and [resetPassword] throws "User not
    found" and writes nothing, also when several users carry it. *)
Theorem lookup_needs_exactly_one (email newPassword : string) (w : World) :
  fault_at 0 w = None ->
  List.length (filter (email_is email) (AppUsers w)) <> 1%nat ->
  fst (getUserByEmail email w) = Returned None
  /\ exists w',
       resetPassword email newPassword w
       = (Threw (JsError "User not found"), w')
       /\ same_tables w w'.
Proof.
  intros H0 Hlen.
  assert (Hget : getUserByEmail email w
                 = (Returned None, with_faults (tl (faults w)) w)).
  { rewrite getUserByEmail_served by exact H0.
    destruct (filter (email_is email) (AppUsers w)) as [|u [|u' l]];
      simpl in *; congruence. }
  split; [now rewrite Hget|].
  unfold resetPassword, bind. rewrite Hget.
  eexists. split; [reflexivity|]. split; reflexivity.
Qed.

(** X7. [createPasswordResetOtp] failed with an error that has neither the
    code 42501 nor a message containing "permission" (nor, a fortiori, no
    message at all) throws the store's error as it is, and no row is
    added. *)
Theorem createPasswordResetOtp_other_failure
    (email otp : string) (w : World) (e : PostgrestError) :
  fault_at 0 w = Some e ->
  code e <> "42501" ->
  (forall m, message e = Some m -> includes m "permission" = false) ->
  exists w',
    createPasswordResetOtp email otp w = (Threw (Postgrest e), w')
    /\ same_tables w w'.
Proof.
  intros H0 Hc Hm. unfold createPasswordResetOtp, bind. refused H0.
  assert (Hl : looks_like_rls e = false).
  { unfold looks_like_rls. apply orb_false_iff. split.
    - now apply String.eqb_neq.
    - destruct (message e) as [m|]; auto. }
  rewrite Hl. eexists. split; [reflexivity|]. split; reflexivity.
Qed.

Lemma fault_at_tl (k : nat) (w v : World) :
  faults v = tl (faults w) -> fault_at k v = fault_at (S k) w.
Proof.
  intros H. unfold fault_at. rewrite H.
  destruct (faults w); simpl; [now destruct k|reflexivity].
Qed.

(** A served verification with a valid row in the table returns true. *)
Lemma verify_accepts email otp w r :
  fault_at 0 w = None -> fault_at 1 w = None ->
  In r (password_reset_otps w) -> Valid email otp (clock w) r ->
  exists row w',
    verifyPasswordResetOtp email otp w = (Returned true, w')
    /\ In row (password_reset_otps w) /\ Valid email otp (clock w) row
    /\ AppUsers w' = AppUsers w
    /\ password_reset_otps w'
       = mark_used (PasswordResetOtp.id row) (password_reset_otps w)
    /\ clock w' = clock w.
Proof.
  intros H0 H1 Hr Hv.
  pose proof (select_newest_valid_spec email otp (clock w) w) as Hspec.
  destruct (data (fst (select_newest_valid email otp (clock w) w)))
    as [row|] eqn:Hrow; [|now elim (Hspec r Hr)].
  destruct Hspec as (_ & Hin & Hvalid & _).
  destruct (verify_found email otp w row H0 Hrow) as [Hserved _].
  destruct (Hserved H1) as (w' & Hrun & Hus & Hos & Hclock & _).
  exists row, w'. repeat (split; [assumption|]). assumption.
Qed.

(** X8. Create and verify round trip: a code stored by a served
    [createPasswordResetOtp] is accepted by a served
    [verifyPasswordResetOtp] with the same e-mail and code at any time less
    than 10 minutes (600000 ms) later. *)
Theorem create_then_verify (email otp : string) (d : Z) (w : World) :
  fault_at 0 w = None -> fault_at 1 w = None -> fault_at 2 w = None ->
  0 <= d < 600000 ->
  exists row w1 w2,
    createPasswordResetOtp email otp w = (Returned (Some row), w1)
    /\ verifyPasswordResetOtp email otp (with_clock (clock w1 + d) w1)
       = (Returned true, w2).
Proof.
  intros H0 H1 H2 Hd.
  unfold createPasswordResetOtp, bind. served H0.
  set (row := otp_defaults _ email otp _).
  set (w1 := with_tables _ _ _ _).
  destruct (verify_accepts email otp (with_clock (clock w1 + d) w1) row)
    as (row' & w2 & Hrun & _).
  - now rewrite (fault_at_tl 0 w).
  - now rewrite (fault_at_tl 1 w).
  - simpl. apply in_or_app. right. now left.
  - unfold Valid. simpl. repeat split. lia.
  - exists row, w1, w2. split; [reflexivity|exact Hrun].
Qed.

(** X9. Expiry is strict: 10 minutes or more after a served
    [createPasswordResetOtp], a verification with the same e-mail and code
    returns false and writes nothing, unless the table already held a row
    valid for that pair at that time. *)
Theorem create_then_verify_too_late (email otp : string) (d : Z) (w : World) :
  fault_at 0 w = None ->
  600000 <= d ->
  (forall r, In r (password_reset_otps w) ->
             ~ Valid email otp (clock w + d) r) ->
  exists row w1 w2,
    createPasswordResetOtp email otp w = (Returned (Some row), w1)
    /\ verifyPasswordResetOtp email otp (with_clock (clock w1 + d) w1)
       = (Returned false, w2)
    /\ password_reset_otps w2 = password_reset_otps w1.
Proof.
  intros H0 Hd Hold.
  unfold createPasswordResetOtp, bind. served H0.
  set (row := otp_defaults _ email otp _).
  set (w1 := with_tables _ _ _ _).
  exists row, w1. eexists. split; [reflexivity|].
  rewrite verify_rejects; [split; reflexivity|].
  simpl. intros r Hr Hv. apply in_app_or in Hr.
  destruct Hr as [Hr|[<-|[]]].
  - exact (Hold r Hr Hv).
  - destruct Hv as (_ & _ & _ & Ht). simpl in Ht. lia.
Qed.

Lemma filter_absorbs {A} (f g : A -> bool) (l : list A) :
  (forall x, In x l -> f x = true -> g x = true) ->
  filter f (filter g l) = filter f l.
Proof.
  induction l as [|a l IH]; simpl; intros H; [reflexivity|].
  assert (IH' : filter f (filter g l) = filter f l)
    by (apply IH; intros x Hx; apply H; now right).
  destruct (g a) eqn:Hg; simpl.
  - now rewrite IH'.
  - destruct (f a) eqn:Hf; [|exact IH'].
    rewrite (H a (or_introl eq_refl) Hf) in Hg. discriminate.
Qed.

(** The answer of a verification depends on the table only through the
    rows valid for the pair. *)
Lemma verify_outcome_ext email otp (w v : World) :
  clock w = clock v -> faults w = faults v ->
  filter (valid_for email otp (clock w)) (password_reset_otps w)
  = filter (valid_for email otp (clock v)) (password_reset_otps v) ->
  fst (verifyPasswordResetOtp email otp w)
  = fst (verifyPasswordResetOtp email otp v).
Proof.
  destruct w as [us os t fs g n mf ob en cs].
  destruct v as [us' os' t' fs' g' n' mf' ob' en' cs']. simpl.
  intros <- <- Hf.
  unfold verifyPasswordResetOtp, bind, await, request, select_newest_valid,
    update_used. simpl.
  destruct fs as [|[e|] fs]; simpl; rewrite <- ?Hf; try reflexivity;
    destruct (single _) as [[row|] [e|]]; simpl; try reflexivity;
    destruct fs as [|[e|] fs]; reflexivity.
Qed.

(** X10. Cleaning up never changes what a verification answers: after
    [cleanupExpiredOtps], served or not, [verifyPasswordResetOtp] at the
    same or any later time returns what it would have returned without the
    cleanup, for every e-mail, code and behaviour of the store. *)
Theorem cleanup_keeps_verification
    (email otp : string) (d : Z) (fs : list (option PostgrestError))
    (w : World) :
  0 <= d ->
  let w' := snd (cleanupExpiredOtps w) in
  fst (verifyPasswordResetOtp email otp
         (with_faults fs (with_clock (clock w + d) w')))
  = fst (verifyPasswordResetOtp email otp
           (with_faults fs (with_clock (clock w + d) w))).
Proof.
  intros Hd w'. apply verify_outcome_ext; try reflexivity. simpl.
  subst w'. unfold cleanupExpiredOtps, bind, await, request, delete_expired.
  destruct (faults w) as [|[e|] fs0]; simpl; try reflexivity;
    apply filter_absorbs; intros r _ Hv; apply valid_for_iff in Hv;
    destruct Hv as (_ & _ & _ & Ht); unfold expired;
    apply negb_true_iff; apply Z.ltb_ge; lia.
Qed.

Lemma not_valid_once_used email otp now r :
  valid_for email otp now (PasswordResetOtp.set_used true r) = false.
Proof.
  unfold valid_for. simpl. now rewrite andb_false_r.
Qed.

(** X11. Each verification consumes at most one code: with unique row ids
    and the store serving, [verifyPasswordResetOtp] returns true exactly
    when some row is valid for the pair, and then the number of rows valid
    for the pair drops by exactly one; otherwise it stays at zero. *)
Theorem verify_consumes_one (email otp : string) (w : World) :
  NoDup (map PasswordResetOtp.id (password_reset_otps w)) ->
  fault_at 0 w = None -> fault_at 1 w = None ->
  exists w',
    verifyPasswordResetOtp email otp w
    = (Returned (negb (Nat.eqb (valid_count email otp (clock w)
                                  (password_reset_otps w)) 0)), w')
    /\ valid_count email otp (clock w) (password_reset_otps w')
       = Nat.pred (valid_count email otp (clock w) (password_reset_otps w)).
Proof.
  intros Hnd H0 H1. unfold valid_count.
  destruct (filter (valid_for email otp (clock w)) (password_reset_otps w))
    as [|r l] eqn:Hf.
  - exists (with_faults (tl (faults w)) w). split.
    + apply verify_rejects. intros r Hr Hv. apply valid_for_iff in Hv.
      assert (Hin : In r (filter (valid_for email otp (clock w))
                                 (password_reset_otps w)))
        by (apply filter_In; auto).
      now rewrite Hf in Hin.
    + simpl. now rewrite Hf.
  - assert (Hr : In r (filter (valid_for email otp (clock w))
                              (password_reset_otps w)))
      by (rewrite Hf; now left).
    apply filter_In in Hr. destruct Hr as [Hr Hv]. apply valid_for_iff in Hv.
    destruct (verify_accepts email otp w r H0 H1 Hr Hv)
      as (row & w' & Hrun & Hin & Hvalid & _ & Hos & _).
    exists w'. split; [exact Hrun|]. rewrite Hos. simpl.
    destruct (in_split _ _ Hin) as (l1 & l2 & Heq).
    rewrite Heq in Hnd, Hf |- *.
    rewrite (mark_used_split _ l1 l2 row Hnd eq_refl).
    rewrite filter_app in Hf |- *. simpl in Hf |- *.
    rewrite not_valid_once_used.
    rewrite (proj2 (valid_for_iff _ _ _ _) Hvalid) in Hf.
    apply (f_equal (@List.length _)) in Hf.
    rewrite length_app in Hf |- *. simpl in Hf. lia.
Qed.

(** * Further properties of the controller *)

(** A property of the log that every handler keeps is kept by every run. *)
Lemma run_log_invariant (Q : list Call -> Prop) :
  (forall st fd us0 rest w us w',
     onSubmit st fd = Suspended us0 rest -> rest w = (us, w') ->
     Q (calls w) -> Q (calls w')) ->
  forall evs s s',
    owned (fun _ => True) s -> Q (calls (world s)) ->
    run s evs = Some s' -> Q (calls (world s')).
Proof.
  intros Hrest. induction evs as [|ev evs IH]; simpl; intros s s' Hown HQ Hrun.
  - now injection Hrun as <-.
  - destruct (dispatch s ev) as [s1|] eqn:Hd; [|discriminate].
    apply (IH s1 s'); [exact (dispatch_owned s s1 ev Hown Hd)| |exact Hrun].
    clear IH Hrun. destruct s as [[fd l st ns] infl w]. unfold owned in Hown.
    simpl in *. destruct ev as [name value| | |d]; simpl in Hd.
    + destruct (rendered st name); [|discriminate]. now injection Hd as <-.
    + destruct l; [discriminate|].
      destruct (onSubmit st fd); now injection Hd as <-.
    + destruct infl as [rest|]; [|discriminate].
      destruct Hown as (cfd & us0 & _ & Hh).
      destruct (rest w) as [us w'] eqn:Hr. injection Hd as <-. simpl.
      exact (Hrest st cfd us0 rest w us w' Hh Hr HQ).
    + destruct (0 <=? d); [|discriminate]. now injection Hd as <-.
Qed.

(** The calls a handler adds to the log when it completes. *)
Lemma rest_log (st : Step.t) (fd : FormData.t) us0 rest w us w' :
  onSubmit st fd = Suspended us0 rest ->
  rest w = (us, w') ->
  exists new,
    calls w' = (new ++ calls w)%list
    /\ forallb call_ok new = true
    /\ (in_order (calls w) = true -> in_order (calls w') = true).
Proof.
  intros Hh Hrest. destruct st; simpl in Hh.
  - unfold handleSendOtp in Hh. destruct (falsy _) eqn:Hne; [discriminate|].
    injection Hh as _ <-. unfold try_catch_finally, bind, traced in Hrest.
    destruct (getUserByEmail _ _) as [[[u|]|x] w1] eqn:E1;
      log_of (getUserByEmail_calls (FormData.email fd)
                (with_calls (CallGetUserByEmail (FormData.email fd) :: calls w) w))
             E1.
    + destruct (generateOtp_calls w1) as (otp & w2 & E2 & C2).
      rewrite E2 in Hrest.
      destruct (createPasswordResetOtp _ _ _) as [[r|x] w3] eqn:E3;
        log_of (createPasswordResetOtp_calls (FormData.email fd) otp
                  (with_calls (CallCreatePasswordResetOtp (FormData.email fd) otp
                                 :: calls w2) w2))
               E3.
      * destruct (sendOtpEmail _ _ _) as [[[]|x] w4] eqn:E4;
          log_of (sendOtpEmail_calls (FormData.email fd) otp
                    (with_calls (CallSendOtpEmail (FormData.email fd) otp
                                   :: calls w3) w3))
                 E4;
          injection Hrest as _ <-;
          exists [CallSendOtpEmail (FormData.email fd) otp;
                  CallCreatePasswordResetOtp (FormData.email fd) otp;
                  CallGetUserByEmail (FormData.email fd)];
          rewrite Hlog1, Hlog0, C2, Hlog; simpl;
          rewrite Hne, !String.eqb_refl; simpl; auto.
      * injection Hrest as _ <-.
        exists [CallCreatePasswordResetOtp (FormData.email fd) otp;
                CallGetUserByEmail (FormData.email fd)].
        rewrite Hlog0, C2, Hlog; simpl.
        rewrite Hne, !String.eqb_refl; simpl; auto.
    + injection Hrest as _ <-.
      exists [CallGetUserByEmail (FormData.email fd)].
      rewrite Hlog; simpl. rewrite Hne; simpl; auto.
    + injection Hrest as _ <-.
      exists [CallGetUserByEmail (FormData.email fd)].
      rewrite Hlog; simpl. rewrite Hne; simpl; auto.
  - unfold handleVerifyOtp in Hh. destruct (falsy _) eqn:Hne; [discriminate|].
    injection Hh as _ <-. unfold try_catch_finally, bind, traced in Hrest.
    destruct (verifyPasswordResetOtp _ _ _) as [[[|]|x] w1] eqn:E1;
      log_of (verifyPasswordResetOtp_calls (FormData.email fd) (FormData.otp fd)
                (with_calls (CallVerifyPasswordResetOtp (FormData.email fd)
                               (FormData.otp fd) :: calls w) w))
             E1;
      injection Hrest as _ <-;
      exists [CallVerifyPasswordResetOtp (FormData.email fd) (FormData.otp fd)];
      rewrite Hlog; simpl; rewrite Hne; simpl; auto.
  - unfold handleResetPassword in Hh.
    destruct (_ || _) eqn:Hne; [discriminate|].
    destruct (negb _); [discriminate|].
    apply orb_false_iff in Hne. destruct Hne as [Hne _].
    injection Hh as _ <-. unfold try_catch_finally, bind, traced in Hrest.
    destruct (resetPassword _ _ _) as [[[]|x] w1] eqn:E1;
      log_of (resetPassword_calls (FormData.email fd) (FormData.newPassword fd)
                (with_calls (CallResetPassword (FormData.email fd)
                               (FormData.newPassword fd) :: calls w) w))
             E1;
      injection Hrest as _ <-;
      exists [CallResetPassword (FormData.email fd) (FormData.newPassword fd)];
      rewrite Hlog; simpl; rewrite Hne; simpl; auto.
Qed.

(** X12. Local validation holds in every run: the controller never looks
    up, stores a code for, or mails an empty address, never verifies an
    empty code, and never resets to an empty password. *)
Theorem calls_have_arguments (w0 : World) (evs : list Event) (s : State) :
  calls w0 = [] ->
  run (initial w0) evs = Some s ->
  forallb call_ok (calls (world s)) = true.
Proof.
  intros Hlog Hrun.
  apply (run_log_invariant (fun cs => forallb call_ok cs = true))
    with (evs := evs) (s := initial w0); [|exact I| |exact Hrun].
  - intros st fd us0 rest w us w' Hh Hr HQ.
    destruct (rest_log st fd us0 rest w us w' Hh Hr) as (new & -> & Hok & _).
    rewrite forallb_app, Hok, HQ. reflexivity.
  - simpl. now rewrite Hlog.
Qed.

(** X13. The code mailed is the code stored: in the log of every run, each
    [createPasswordResetOtp] comes right after the lookup of the same
    address, and each mail dispatch right after the
    [createPasswordResetOtp] of the same address and code. *)
Theorem mailed_code_is_stored (w0 : World) (evs : list Event) (s : State) :
  calls w0 = [] ->
  run (initial w0) evs = Some s ->
  in_order (calls (world s)) = true.
Proof.
  intros Hlog Hrun.
  apply (run_log_invariant (fun cs => in_order cs = true))
    with (evs := evs) (s := initial w0); [|exact I| |exact Hrun].
  - intros st fd us0 rest w us w' Hh Hr HQ.
    destruct (rest_log st fd us0 rest w us w' Hh Hr) as (new & _ & _ & Hord).
    auto.
  - simpl. now rewrite Hlog.
Qed.

Lemma apply_updates_app us vs c :
  apply_updates (us ++ vs) c = apply_updates vs (apply_updates us c).
Proof. unfold apply_updates. apply fold_left_app. Qed.

(** [finally { setIsLoading(false) }]: however the body ends, the busy
    flag is cleared last. *)
Lemma finally_clears body catch w us w' c :
  try_catch_finally body catch w = (us, w') ->
  isLoading (apply_updates us c) = false.
Proof.
  unfold try_catch_finally. destruct (body w) as [[vs|x] w1];
    intros H; injection H as <- _; now rewrite apply_updates_app.
Qed.

Lemma onSubmit_rest st fd us0 rest :
  onSubmit st fd = Suspended us0 rest ->
  exists body catch, rest = try_catch_finally body catch.
Proof.
  destruct st; simpl.
  - unfold handleSendOtp. destruct (falsy _); [discriminate|].
    intros H. injection H as _ <-. eauto.
  - unfold handleVerifyOtp. destruct (falsy _); [discriminate|].
    intros H. injection H as _ <-. eauto.
  - unfold handleResetPassword. destruct (_ || _); [discriminate|].
    destruct (negb _); [discriminate|].
    intros H. injection H as _ <-. eauto.
Qed.

Lemma dispatch_busy (s s' : State) (ev : Event) :
  owned (fun _ => True) s -> busy_flag_ok s ->
  dispatch s ev = Some s' -> busy_flag_ok s'.
Proof.
  destruct s as [[fd l st ns] infl w]. unfold owned, busy_flag_ok. simpl.
  intros Hown Hb Hd. destruct ev as [name value| | |d]; simpl in Hd.
  - destruct (rendered st name); [|discriminate]. now injection Hd as <-.
  - destruct l; [discriminate|].
    destruct (onSubmit_shape st fd) as [(n & Hh)|(rest & Hh)];
      rewrite Hh in Hd; injection Hd as <-; simpl; auto.
  - destruct infl as [rest|]; [|discriminate].
    destruct Hown as (cfd & us0 & _ & Hh).
    destruct (onSubmit_rest st cfd us0 rest Hh) as (body & catch & ->).
    destruct (try_catch_finally body catch w) as [us w'] eqn:Hr.
    injection Hd as <-. simpl. exact (finally_clears _ _ _ _ _ _ Hr).
  - destruct (0 <=? d); [|discriminate]. now injection Hd as <-.
Qed.

Lemma run_busy (evs : list Event) (s s' : State) :
  owned (fun _ => True) s -> busy_flag_ok s -> run s evs = Some s' ->
  owned (fun _ => True) s' /\ busy_flag_ok s'.
Proof.
  revert s. induction evs as [|ev evs IH]; simpl; intros s Hown Hb Hrun.
  - now injection Hrun as <-.
  - destruct (dispatch s ev) as [s1|] eqn:Hd; [|discriminate].
    apply (IH s1); [| |exact Hrun].
    + exact (dispatch_owned s s1 ev Hown Hd).
    + exact (dispatch_busy s s1 ev Hown Hb Hd).
Qed.

(** X14. Submissions never overlap: in every state a run can reach the
    busy flag is set exactly while a handler is suspended at its calls, so
    a submission, which needs the flag clear, never replaces a suspended
    handler, and every completion, successful or not, clears the flag. *)
Theorem busy_flag_tracks_handler (w0 : World) (evs : list Event) (s : State) :
  run (initial w0) evs = Some s ->
  busy_flag_ok s
  /\ (forall s', dispatch s Submit = Some s' -> inflight s = None)
  /\ (forall s', dispatch s Settle = Some s' -> isLoading (ui s') = false).
Proof.
  intros Hrun.
  assert (Hinv : owned (fun _ => True) s /\ busy_flag_ok s).
  { apply (run_busy evs (initial w0)); [exact I|reflexivity|exact Hrun]. }
  destruct Hinv as [Hown Hb]. split; [exact Hb|]. split.
  - intros s' Hd. unfold busy_flag_ok in Hb. simpl in Hd.
    destruct (isLoading (ui s)); [discriminate|].
    now destruct (inflight s).
  - intros s' Hd.
    pose proof (dispatch_busy s s' Settle Hown Hb Hd) as Hb'.
    unfold busy_flag_ok in Hb'. simpl in Hd.
    destruct (inflight s) as [rest|]; [|discriminate].
    destruct (rest (world s)) as [us w']. injection Hd as <-.
    exact Hb'.
Qed.

(** X15. The page moves only forward and only when a handler completes:
    from a state a run can reach, an event leaves the step as it is, or it
    is the completion of the suspended handler and the step moves from
    [email] to [otp], from [otp] to [password], or from [password] back to
    [email].  Typing, submitting and the passing of time never change the
    step. *)
Theorem step_moves_forward (w0 : World) (evs : list Event) (s s' : State)
    (ev : Event) :
  run (initial w0) evs = Some s ->
  dispatch s ev = Some s' ->
  step (ui s') = step (ui s)
  \/ (ev = Settle /\ step (ui s') = next_step (step (ui s))).
Proof.
  intros Hrun Hd.
  assert (Hown : owned (fun _ => True) s)
    by (apply (run_owned evs (initial w0)); [exact I|exact Hrun]).
  clear Hrun. destruct s as [[fd l st ns] infl w]. unfold owned in Hown.
  simpl in *. destruct ev as [name value| | |d]; simpl in Hd.
  - destruct (rendered st name); [|discriminate]. injection Hd as <-. now left.
  - destruct l; [discriminate|].
    destruct (onSubmit_shape st fd) as [(n & Hh)|(rest & Hh)];
      rewrite Hh in Hd; injection Hd as <-; now left.
  - destruct infl as [rest|]; [|discriminate].
    destruct Hown as (cfd & us0 & _ & Hh).
    destruct (rest w) as [us w'] eqn:Hrest. injection Hd as <-. simpl.
    pose proof (rest_effect st cfd us0 rest w us w'
                  (mkComponent fd l st ns) Hh Hrest eq_refl) as He.
    destruct st; simpl in He.
    + destruct He as (_ & [Hs|Hs] & _); rewrite Hs; auto.
    + destruct He as (_ & [Hs|Hs] & _); rewrite Hs; auto.
    + destruct He as (_ & [[_ Hs]|[_ Hs]]); rewrite Hs; auto.
  - destruct (0 <=? d); [|discriminate]. injection Hd as <-. now left.
Qed.

(** A verification that returns true has marked a row of its e-mail. *)
Lemma verify_true_consumes email otp w w' :
  verifyPasswordResetOtp email otp w = (Returned true, w') ->
  consumed email (password_reset_otps w').
Proof.
  intros Hrun. destruct (fault_at 0 w) as [e|] eqn:H0.
  - unfold verifyPasswordResetOtp, bind, await in Hrun.
    rewrite (request_failed _ _ _ H0) in Hrun. simpl in Hrun. discriminate.
  - pose proof (select_newest_valid_spec email otp (clock w) w) as Hspec.
    destruct (data (fst (select_newest_valid email otp (clock w) w)))
      as [row|] eqn:Hrow.
    + destruct Hspec as (_ & Hin & (He & _) & _).
      destruct (verify_found email otp w row H0 Hrow) as [Hserved Hfailed].
      destruct (fault_at 1 w) as [e|] eqn:H1.
      * destruct (Hfailed e eq_refl) as (w2 & Hrun2 & _). congruence.
      * destruct (Hserved eq_refl) as (w2 & Hrun2 & _ & Hos & _).
        rewrite Hrun2 in Hrun. injection Hrun as <-.
        exists (PasswordResetOtp.set_used true row). rewrite Hos.
        split; [|split; [reflexivity|exact He]].
        unfold mark_used. apply in_map_iff. exists row. split; [|exact Hin].
        now rewrite String.eqb_refl.
    + rewrite (verify_rejects _ _ _ Hspec) in Hrun. discriminate.
Qed.

Lemma getUserByEmail_tables email w :
  same_tables w (snd (getUserByEmail email w)).
Proof.
  unfold getUserByEmail, bind, await, request.
  destruct (faults w) as [|[e|] fs]; simpl.
  - now destruct (single _) as [d [e|]]; simpl;
      [destruct (String.eqb (code e) "PGRST116")|].
  - now destruct (String.eqb (code e) "PGRST116").
  - now destruct (single _) as [d [e|]]; simpl;
      [destruct (String.eqb (code e) "PGRST116")|].
Qed.

Lemma resetPassword_otps email newPassword w :
  password_reset_otps (snd (resetPassword email newPassword w))
  = password_reset_otps w.
Proof.
  unfold resetPassword, bind.
  pose proof (getUserByEmail_tables email w) as [_ Hos].
  destruct (getUserByEmail email w) as [[[u|]|x] w1]; simpl in *; auto.
  unfold await, request.
  destruct (faults w1) as [|[e|] fs]; simpl; exact Hos.
Qed.

(** What the completion of the second and third handlers does to the OTP
    table. *)
Lemma rest_tables (st : Step.t) (fd : FormData.t) us0 rest w us w' c :
  onSubmit st fd = Suspended us0 rest ->
  rest w = (us, w') ->
  step c = st ->
  match st with
  | Step.email => True
  | Step.otp =>
      step (apply_updates us c) = Step.password ->
      consumed (FormData.email fd) (password_reset_otps w')
  | Step.password => password_reset_otps w' = password_reset_otps w
  end.
Proof.
  intros Hh Hrest Hst. destruct c as [cfd l cst ns]. simpl in Hst. subst cst.
  destruct st; simpl in Hh; [exact I| |].
  - unfold handleVerifyOtp in Hh. destruct (falsy _); [discriminate|].
    injection Hh as _ <-. unfold try_catch_finally, bind, traced in Hrest.
    destruct (verifyPasswordResetOtp _ _ _) as [[[|]|x] w1] eqn:E1;
      injection Hrest as <- <-; simpl; try discriminate.
    intros _. exact (verify_true_consumes _ _ _ _ E1).
  - unfold handleResetPassword in Hh.
    destruct (_ || _); [discriminate|]. destruct (negb _); [discriminate|].
    injection Hh as _ <-. unfold try_catch_finally, bind, traced in Hrest.
    pose proof (resetPassword_otps (FormData.email fd) (FormData.newPassword fd)
                  (with_calls (CallResetPassword (FormData.email fd)
                                 (FormData.newPassword fd) :: calls w) w)) as Hos.
    destruct (resetPassword _ _ _) as [[[]|x] w1];
      injection Hrest as _ <-; exact Hos.
Qed.

Lemma dispatch_Guarded (s s' : State) (ev : Event) :
  Guarded s -> dispatch s ev = Some s' -> Guarded s'.
Proof.
  destruct s as [[fd l st ns] infl w]. unfold Guarded, owned. simpl.
  intros (Hown & Hcons) Hd.
  destruct ev as [name value| | |d]; simpl in Hd.
  - destruct (rendered st name) eqn:Hr; [|discriminate].
    injection Hd as <-. simpl.
    destruct name; try (simpl; split; assumption).
    apply rendered_email in Hr. subst st. split; [|discriminate].
    destruct infl as [rest|]; [|exact I].
    destruct Hown as (cfd & us0 & _ & Hh). exists cfd, us0.
    split; [congruence|exact Hh].
  - destruct l; [discriminate|].
    destruct (onSubmit_shape st fd) as [(n & Hh)|(rest & Hh)];
      rewrite Hh in Hd; injection Hd as <-; simpl; [split; assumption|].
    split; [|exact Hcons]. exists fd, [setIsLoading true]. auto.
  - destruct infl as [rest|]; [|discriminate].
    destruct Hown as (cfd & us0 & Hcfd & Hh).
    destruct (rest w) as [us w'] eqn:Hrest. injection Hd as <-. simpl.
    split; [exact I|].
    pose proof (rest_effect st cfd us0 rest w us w'
                  (mkComponent fd l st ns) Hh Hrest eq_refl) as He.
    pose proof (rest_tables st cfd us0 rest w us w'
                  (mkComponent fd l st ns) Hh Hrest eq_refl) as Ht.
    destruct st; simpl in He, Ht.
    + destruct He as (_ & [Hs|Hs] & _); rewrite Hs; discriminate.
    + destruct He as (Hfd & _ & _). intros Hs. rewrite Hfd.
      rewrite <- (Hcfd ltac:(discriminate)). exact (Ht Hs).
    + destruct He as (_ & [[Hfd _]|[_ Hs]]).
      * intros _. rewrite Hfd, Ht. apply Hcons. reflexivity.
      * rewrite Hs. discriminate.
  - destruct (0 <=? d); [|discriminate]. injection Hd as <-. simpl.
    split; assumption.
Qed.

Lemma run_Guarded (evs : list Event) (s s' : State) :
  Guarded s -> run s evs = Some s' -> Guarded s'.
Proof.
  revert s. induction evs as [|ev evs IH]; simpl; intros s HG Hrun.
  - now injection Hrun as <-.
  - destruct (dispatch s ev) as [s1|] eqn:Hd; [|discriminate].
    apply (IH s1); [|exact Hrun]. exact (dispatch_Guarded s s1 ev HG Hd).
Qed.

(** X16. No reset without a consumed code: in every run, also one in which
    the address is edited while a lookup is awaited, whenever the page is
    in the [password] step the OTP table holds a used row for the address
    the form shows, and the [resetPassword] a submission there leads to is
    called with that address. *)
Theorem reset_needs_consumed_code (w0 : World) (evs : list Event) (s : State) :
  run (initial w0) evs = Some s ->
  step (ui s) = Step.password ->
  consumed (FormData.email (formData (ui s))) (password_reset_otps (world s))
  /\ forall s',
       dispatch s Settle = Some s' ->
       exists p,
         calls (world s')
         = CallResetPassword (FormData.email (formData (ui s))) p
             :: calls (world s).
Proof.
  intros Hrun Hst.
  assert (HG : Guarded s).
  { apply (run_Guarded evs (initial w0)); [|exact Hrun].
    split; [exact I|discriminate]. }
  destruct HG as [Hown Hcons]. split; [exact (Hcons Hst)|].
  intros s' Hd. unfold owned in Hown. simpl in Hd.
  destruct (inflight s) as [rest|]; [|discriminate].
  destruct Hown as (cfd & us0 & Hcfd & Hh).
  destruct (rest (world s)) as [us w'] eqn:Hrest. injection Hd as <-. simpl.
  pose proof (rest_effect (step (ui s)) cfd us0 rest (world s) us w'
                (ui s) Hh Hrest eq_refl) as He.
  rewrite Hst in He. simpl in He. destruct He as [Hc _].
  exists (FormData.newPassword cfd). rewrite Hc, Hcfd; [reflexivity|].
  rewrite Hst. discriminate.
Qed.


(** ** Helpers for whole submissions *)

Lemma generateOtp_next w :
  generateOtp w = (Returned (next_code w), with_entropy (tl (entropy w)) w).
Proof.
  unfold generateOtp, next_code. destruct w as [us os t fs g n mf ob en cs].
  cbn [entropy]. destruct en as [|k en]; cbn [hd tl].
  - change (100000 + 0) with 100000. reflexivity.
  - reflexivity.
Qed.









(** X18. A code that cannot be stored is not mailed: when the user is
    found and the store fails the insertion, the submission ends in the
    [email] step with one error notice, the OTP table and the outbox as
    they were; and when the failure looks like a policy rejection (code
    42501 or "permission" in the message) the notice is the one that sends
    the user to the administrator. *)
Theorem handleSendOtp_store_failure (s : State) (u : AppUser.t)
    (e : PostgrestError) :
  step (ui s) = Step.email ->
  isLoading (ui s) = false ->
  FormData.email (formData (ui s)) <> "" ->
  filter (email_is (FormData.email (formData (ui s)))) (AppUsers (world s)) = [u] ->
  fault_at 0 (world s) = None -> fault_at 1 (world s) = Some e ->
  exists s' text,
    run s [Submit; Settle] = Some s'
    /\ step (ui s') = Step.email
    /\ isLoading (ui s') = false
    /\ notices (ui s') = notice_error text :: notices (ui s)
    /\ (looks_like_rls e = true ->
        text = "Database permission error. Please contact administrator to disable RLS for password_reset_otps table.")
    /\ password_reset_otps (world s') = password_reset_otps (world s)
    /\ outbox (world s') = outbox (world s).
Proof.
  destruct s as [[fd l st ns] infl w]. cbn [ui world step isLoading formData notices].
  intros -> -> Hemail Hone H0 H1.
  cbn [run dispatch ui isLoading step formData onSubmit].
  unfold handleSendOtp. rewrite (falsy_false _ Hemail).
  cbn [inflight world ui]. unfold try_catch_finally, bind, traced.
  rewrite getUserByEmail_served by exact H0.
  cbn [AppUsers with_calls]. rewrite Hone. rewrite generateOtp_next.
  generalize (next_code (with_faults (tl (faults w)) (with_calls (CallGetUserByEmail (FormData.email fd) :: calls w) w))).
  intros c.
  destruct w as [us os t fs g n mf ob en cs].
  unfold fault_at in H0, H1. cbn [faults] in H0, H1.
  unfold createPasswordResetOtp, bind, await, request.
  destruct fs as [|[e0|] [|[e1|] fs]]; try discriminate.
  injection H1 as ->.
  cbn -[Z.add Z.mul looks_like_rls send_error_message].
  destruct (looks_like_rls e) eqn:Hrls;
    cbn -[Z.add Z.mul send_error_message];
    do 2 eexists; (split; [reflexivity|]);
    cbn -[Z.add Z.mul send_error_message].
  - split; [reflexivity|]. split; [reflexivity|]. split; [reflexivity|].
    split; [|split; reflexivity]. intros _. vm_compute. reflexivity.
  - split; [reflexivity|]. split; [reflexivity|]. split; [reflexivity|].
    split; [|split; reflexivity]. discriminate.
Qed.

(** X19. A code that cannot be mailed stays stored: when the user is found
    and the insertion is served but the mail service rejects the dispatch,
    the submission ends in the [email] step with one error notice and an
    unchanged outbox, and the row appended for the address is still in the
    OTP table, unused. *)
Theorem handleSendOtp_mail_failure (s : State) (u : AppUser.t)
    (status : Z) (text : string) :
  step (ui s) = Step.email ->
  isLoading (ui s) = false ->
  FormData.email (formData (ui s)) <> "" ->
  filter (email_is (FormData.email (formData (ui s)))) (AppUsers (world s)) = [u] ->
  fault_at 0 (world s) = None -> fault_at 1 (world s) = None ->
  nth 0 (mail_faults (world s)) None = Some (status, text) ->
  exists s' row shown,
    run s [Submit; Settle] = Some s'
    /\ step (ui s') = Step.email
    /\ isLoading (ui s') = false
    /\ notices (ui s') = notice_error shown :: notices (ui s)
    /\ password_reset_otps (world s')
       = (password_reset_otps (world s) ++ [row])%list
    /\ PasswordResetOtp.email row = FormData.email (formData (ui s))
    /\ PasswordResetOtp.used row = false
    /\ outbox (world s') = outbox (world s).
Proof.
  destruct s as [[fd l st ns] infl w]. cbn [ui world step isLoading formData notices].
  intros -> -> Hemail Hone H0 H1 Hm.
  cbn [run dispatch ui isLoading step formData onSubmit].
  unfold handleSendOtp. rewrite (falsy_false _ Hemail).
  cbn [inflight world ui]. unfold try_catch_finally, bind, traced.
  rewrite getUserByEmail_served by exact H0.
  cbn [AppUsers with_calls]. rewrite Hone. rewrite generateOtp_next.
  generalize (next_code (with_faults (tl (faults w)) (with_calls (CallGetUserByEmail (FormData.email fd) :: calls w) w))).
  intros c.
  destruct w as [us os t fs g n mf ob en cs].
  unfold fault_at in H0, H1. cbn [faults mail_faults] in H0, H1, Hm.
  unfold createPasswordResetOtp, sendOtpEmail, bind, await, request, otp_defaults.
  destruct fs as [|[e0|] [|[e1|] fs]]; try discriminate;
    destruct mf as [|[[sx tx]|] mf]; try discriminate;
    cbn -[Z.add Z.mul send_error_message];
    do 3 eexists; (split; [reflexivity|]);
    cbn -[Z.add Z.mul send_error_message]; repeat split.
Qed.

(** X20. The third step: with a matching, non-empty pair typed in, a
    submission in the [password] step calls [resetPassword] with the form's
    address and new password; if it returns, the page shows the success
    notice, clears all four fields and goes back to [email]; if it throws,
    the page stays in [password] with the fields as typed and an error
    notice. *)
Theorem handleResetPassword_transitions (s : State) :
  step (ui s) = Step.password ->
  isLoading (ui s) = false ->
  FormData.newPassword (formData (ui s)) <> "" ->
  FormData.confirmPassword (formData (ui s))
  = FormData.newPassword (formData (ui s)) ->
  let fd := formData (ui s) in
  let call := CallResetPassword (FormData.email fd) (FormData.newPassword fd) in
  let result :=
    resetPassword (FormData.email fd) (FormData.newPassword fd)
      (with_calls (call :: calls (world s)) (world s)) in
  exists s',
    run s [Submit; Settle] = Some s'
    /\ world s' = snd result
    /\ isLoading (ui s') = false
    /\ match fst result with
       | Returned _ =>
           step (ui s') = Step.email
           /\ formData (ui s') = FormData.empty
           /\ notices (ui s') = notice_reset_successful :: notices (ui s)
       | Threw _ =>
           step (ui s') = Step.password
           /\ formData (ui s') = fd
           /\ notices (ui s')
              = notice_error "Failed to reset password. Please try again."
                  :: notices (ui s)
       end.
Proof.
  destruct s as [[fd l st ns] infl w]. simpl. intros -> -> Hnew Hconf.
  cbn zeta. cbn [run dispatch ui isLoading step formData onSubmit].
  unfold handleResetPassword. rewrite Hconf, (falsy_false _ Hnew).
  rewrite String.eqb_refl. cbn [orb negb].
  cbn [inflight world ui]. unfold try_catch_finally, bind, traced.
  destruct (resetPassword _ _ _) as [[[]|x] w']; simpl;
    eexists; split; try reflexivity; simpl; auto.
Qed.

(** X21. An incomplete or mismatched pair never leaves the page: in the
    [password] step, when a field of the pair is empty or the two differ,
    a submission shows "Missing Fields" or "Password Mismatch" and does
    nothing else: no handler is suspended, the busy flag stays clear, and
    the step, the form and the world are as they were. *)
Theorem handleResetPassword_rejects (s : State) :
  step (ui s) = Step.password ->
  isLoading (ui s) = false ->
  FormData.newPassword (formData (ui s)) = ""
  \/ FormData.confirmPassword (formData (ui s)) = ""
  \/ FormData.newPassword (formData (ui s))
     <> FormData.confirmPassword (formData (ui s)) ->
  exists s' n,
    dispatch s Submit = Some s'
    /\ (n = notice_missing_fields \/ n = notice_password_mismatch)
    /\ notices (ui s') = n :: notices (ui s)
    /\ step (ui s') = Step.password
    /\ formData (ui s') = formData (ui s)
    /\ isLoading (ui s') = false
    /\ inflight s' = inflight s
    /\ world s' = world s.
Proof.
  destruct s as [[fd l st ns] infl w].
  cbn [ui world step isLoading formData notices inflight]. intros -> -> Hbad.
  cbn [dispatch ui isLoading step formData onSubmit].
  unfold handleResetPassword.
  destruct (falsy (FormData.newPassword fd) || falsy (FormData.confirmPassword fd))
    eqn:Hempty.
  - do 2 eexists. split; [reflexivity|]. simpl.
    split; [left; reflexivity|]. repeat split.
  - destruct (negb (String.eqb (FormData.newPassword fd)
                               (FormData.confirmPassword fd))) eqn:Hneq.
    + do 2 eexists. split; [reflexivity|]. simpl.
      split; [right; reflexivity|]. repeat split.
    + exfalso. apply orb_false_iff in Hempty. destruct Hempty as [Hn Hc].
      unfold falsy in Hn, Hc. apply String.eqb_neq in Hn, Hc.
      apply negb_false_iff, String.eqb_eq in Hneq. tauto.
Qed.



(** ** The flow from end to end *)


(** * The further properties at sample inputs *)

Ltac nobody_has_it :=
  let u := fresh "u" in
  intros u; cbn [In AppUsers Sample.world]; intros [<-|[<-|[]]]; discriminate.

(** X1 at samples: carol registers and is found. *)
Lemma addUser_then_getUserByEmail_witness :
  exists w1 w2,
    addUser Sample.carol (Sample.world [] [])
    = (Returned (Some (AppUser.mk "Carol" "c@x.com" "s3cret" Pending)), w1)
    /\ getUserByEmail "c@x.com" w1
       = (Returned (Some (AppUser.mk "Carol" "c@x.com" "s3cret" Pending)), w2).
Proof.
  destruct (addUser_then_getUserByEmail Sample.carol (Sample.world [] [])
              eq_refl eq_refl)
    as (w1 & w2 & Hadd & _ & _ & Hget & _).
  - nobody_has_it.
  - exists w1, w2. split; [exact Hadd|exact Hget].
Defined.

(** X2 at samples: bob is approved; an unknown address changes nothing. *)
Lemma updateUserStatus_spec_witness :
  (exists w' l1 l2,
     updateUserStatus "b@x.com" Approved (Sample.world [] []) = (Returned tt, w')
     /\ AppUsers (Sample.world [] []) = (l1 ++ Sample.bob :: l2)%list
     /\ AppUsers w'
        = (l1 ++ AppUser.mk "Bob" "b@x.com" "hunter2" Approved :: l2)%list)
  /\ (exists w',
        updateUserStatus "missing@x.com" Approved (Sample.world [] [])
        = (Returned tt, w')
        /\ AppUsers w' = [Sample.alice; Sample.bob]).
Proof.
  split.
  - destruct (updateUserStatus_spec "b@x.com" Approved (Sample.world [] [])
                eq_refl) as (w' & Hrun & _ & _ & Hone).
    destruct (Hone Sample.bob) as (l1 & l2 & Heq & Hus).
    + exact sample_emails_unique.
    + cbn [In AppUsers Sample.world]. auto.
    + reflexivity.
    + exists w', l1, l2. auto.
  - destruct (updateUserStatus_spec "missing@x.com" Approved
                (Sample.world [] []) eq_refl) as (w' & Hrun & _ & Hnone & _).
    exists w'. split; [exact Hrun|]. apply Hnone. nobody_has_it.
Defined.

(** X3 at samples: alice resets her password and is looked up. *)
Lemma resetPassword_then_getUserByEmail_witness :
  exists w1 w2,
    resetPassword "a@x.com" "NewPass1!" (Sample.world [] []) = (Returned tt, w1)
    /\ getUserByEmail "a@x.com" w1
       = (Returned (Some (AppUser.mk "Alice" "a@x.com" "NewPass1!" Pending)), w2).
Proof.
  apply (resetPassword_then_getUserByEmail "a@x.com" "NewPass1!" Sample.alice
           (Sample.world [] [])).
  - exact sample_emails_unique.
  - cbn [In AppUsers Sample.world]. auto.
  - reflexivity.
  - reflexivity.
  - reflexivity.
  - reflexivity.
Defined.

(** X4 at samples: alice resets her password and is approved again. *)
Lemma resetPassword_then_approve_witness :
  exists l1 l2 w1 w2,
    resetPassword "a@x.com" "NewPass1!" (Sample.world [] []) = (Returned tt, w1)
    /\ updateUserStatus "a@x.com" Approved w1 = (Returned tt, w2)
    /\ AppUsers (Sample.world [] []) = (l1 ++ Sample.alice :: l2)%list
    /\ AppUsers w2
       = (l1 ++ AppUser.mk "Alice" "a@x.com" "NewPass1!" Approved :: l2)%list.
Proof.
  apply (resetPassword_then_approve "a@x.com" "NewPass1!" Sample.alice
           (Sample.world [] [])).
  - exact sample_emails_unique.
  - cbn [In AppUsers Sample.world]. auto.
  - reflexivity.
  - reflexivity.
  - reflexivity.
  - reflexivity.
Defined.

(** X5 at samples: the lookup failed by an outage, and the update failed by
    one. *)
Lemma resetPassword_failures_witness :
  (exists w',
     resetPassword "a@x.com" "NewPass1!"
       (Sample.world [] [Some Sample.outage])
     = (Threw (Postgrest Sample.outage), w')
     /\ AppUsers w' = [Sample.alice; Sample.bob])
  /\ (exists w',
        resetPassword "a@x.com" "NewPass1!"
          (Sample.world [] [None; Some Sample.outage])
        = (Threw (Postgrest Sample.outage), w')
        /\ AppUsers w' = [Sample.alice; Sample.bob]).
Proof.
  split.
  - destruct (proj1 (resetPassword_failures "a@x.com" "NewPass1!"
                       (Sample.world [] [Some Sample.outage]))
                Sample.outage eq_refl) as (w' & Hrun & Hus & _).
    exists w'. split; [exact Hrun|exact Hus].
  - destruct (proj2 (resetPassword_failures "a@x.com" "NewPass1!"
                       (Sample.world [] [None; Some Sample.outage]))
                Sample.outage Sample.alice eq_refl eq_refl eq_refl)
      as (w' & Hrun & Hus & _).
    exists w'. split; [exact Hrun|exact Hus].
Defined.

(** X6 at samples: two rows carry alice's address. *)
Lemma lookup_needs_exactly_one_witness :
  fst (getUserByEmail "a@x.com"
         (Sample.world_with [Sample.alice; Sample.alias] [] [] []))
  = Returned None
  /\ exists w',
       resetPassword "a@x.com" "NewPass1!"
         (Sample.world_with [Sample.alice; Sample.alias] [] [] [])
       = (Threw (JsError "User not found"), w')
       /\ AppUsers w' = [Sample.alice; Sample.alias].
Proof.
  destruct (lookup_needs_exactly_one "a@x.com" "NewPass1!"
              (Sample.world_with [Sample.alice; Sample.alias] [] [] []) eq_refl)
    as (Hget & w' & Hrun & Hus & _).
  - vm_compute. discriminate.
  - split; [exact Hget|]. exists w'. split; [exact Hrun|exact Hus].
Defined.

(** X7 at samples: an outage during the insertion. *)
Lemma createPasswordResetOtp_other_failure_witness :
  exists w',
    createPasswordResetOtp "a@x.com" "123456"
      (Sample.world [Sample.stale] [Some Sample.outage])
    = (Threw (Postgrest Sample.outage), w')
    /\ password_reset_otps w' = [Sample.stale].
Proof.
  destruct (createPasswordResetOtp_other_failure "a@x.com" "123456"
              (Sample.world [Sample.stale] [Some Sample.outage]) Sample.outage
              eq_refl)
    as (w' & Hrun & _ & Hos).
  - discriminate.
  - intros m Hm. injection Hm as <-. reflexivity.
  - exists w'. split; [exact Hrun|exact Hos].
Defined.

(** X8 at samples: a code verified one second after it was stored. *)
Lemma create_then_verify_witness :
  exists row w1 w2,
    createPasswordResetOtp "a@x.com" "123456" (Sample.world [Sample.spent] [])
    = (Returned (Some row), w1)
    /\ verifyPasswordResetOtp "a@x.com" "123456"
         (with_clock (clock w1 + 1000) w1)
       = (Returned true, w2).
Proof.
  apply (create_then_verify "a@x.com" "123456" 1000
           (Sample.world [Sample.spent] [])).
  - reflexivity.
  - reflexivity.
  - reflexivity.
  - lia.
Defined.

(** X9 at samples: the same code, exactly 10 minutes after it was stored. *)
Lemma create_then_verify_too_late_witness :
  exists row w1 w2,
    createPasswordResetOtp "a@x.com" "123456" (Sample.world [Sample.spent] [])
    = (Returned (Some row), w1)
    /\ verifyPasswordResetOtp "a@x.com" "123456"
         (with_clock (clock w1 + 600000) w1)
       = (Returned false, w2)
    /\ password_reset_otps w2 = password_reset_otps w1.
Proof.
  apply (create_then_verify_too_late "a@x.com" "123456" 600000
           (Sample.world [Sample.spent] [])).
  - reflexivity.
  - lia.
  - intros r [<-|[]] (_ & _ & Hu & _). discriminate.
Defined.

(** X10 at samples: a verification after a cleanup that removed a row. *)
Lemma cleanup_keeps_verification_witness :
  password_reset_otps
    (snd (cleanupExpiredOtps (Sample.world [Sample.stale; Sample.fresh] [])))
  = [Sample.fresh]
  /\ fst (verifyPasswordResetOtp "a@x.com" "123456"
            (with_faults []
               (with_clock (clock (Sample.world [Sample.stale; Sample.fresh] [])
                            + 5)
                  (snd (cleanupExpiredOtps
                          (Sample.world [Sample.stale; Sample.fresh] []))))))
     = fst (verifyPasswordResetOtp "a@x.com" "123456"
              (with_faults []
                 (with_clock
                    (clock (Sample.world [Sample.stale; Sample.fresh] []) + 5)
                    (Sample.world [Sample.stale; Sample.fresh] [])))).
Proof.
  split; [reflexivity|].
  apply (cleanup_keeps_verification "a@x.com" "123456" 5 []
           (Sample.world [Sample.stale; Sample.fresh] [])).
  lia.
Defined.

(** X11 at samples: two valid rows for the pair, one left afterwards. *)
Lemma verify_consumes_one_witness :
  valid_count "a@x.com" "123456" Sample.noon
    [Sample.stale; Sample.fresh; Sample.twin] = 2%nat
  /\ exists w',
       verifyPasswordResetOtp "a@x.com" "123456"
         (Sample.world [Sample.stale; Sample.fresh; Sample.twin] [])
       = (Returned true, w')
       /\ valid_count "a@x.com" "123456" Sample.noon (password_reset_otps w')
          = 1%nat.
Proof.
  split; [reflexivity|].
  destruct (verify_consumes_one "a@x.com" "123456"
              (Sample.world [Sample.stale; Sample.fresh; Sample.twin] []))
    as (w' & Hrun & Hcount).
  - repeat constructor; cbn [In map PasswordResetOtp.id Sample.stale
                               Sample.fresh Sample.twin]; intuition discriminate.
  - reflexivity.
  - reflexivity.
  - exists w'. split; [exact Hrun|exact Hcount].
Defined.

(** X12 at samples: the calls of the flow with the address typed once. *)
Lemma calls_have_arguments_witness :
  exists s,
    run (initial (Sample.world [] [])) Sample.calm = Some s
    /\ forallb call_ok (calls (world s)) = true.
Proof.
  destruct (run (initial (Sample.world [] [])) Sample.calm) as [s|] eqn:Hrun;
    [|vm_compute in Hrun; discriminate Hrun].
  exists s. split; [reflexivity|].
  exact (calls_have_arguments (Sample.world [] []) Sample.calm s eq_refl Hrun).
Defined.

(** X13 at samples: the same run. *)
Lemma mailed_code_is_stored_witness :
  exists s,
    run (initial (Sample.world [] [])) Sample.calm = Some s
    /\ in_order (calls (world s)) = true.
Proof.
  destruct (run (initial (Sample.world [] [])) Sample.calm) as [s|] eqn:Hrun;
    [|vm_compute in Hrun; discriminate Hrun].
  exists s. split; [reflexivity|].
  exact (mailed_code_is_stored (Sample.world [] []) Sample.calm s eq_refl Hrun).
Defined.

(** X14 at samples: the page while the lookup is awaited. *)
Lemma busy_flag_tracks_handler_witness :
  exists s,
    run (initial (Sample.world [] [])) Sample.waiting = Some s
    /\ isLoading (ui s) = true
    /\ busy_flag_ok s.
Proof.
  assert (Hl : option_map (fun s => isLoading (ui s))
                 (run (initial (Sample.world [] [])) Sample.waiting)
               = Some true) by (vm_compute; reflexivity).
  destruct (run (initial (Sample.world [] [])) Sample.waiting) as [s|] eqn:Hrun;
    [|discriminate Hl].
  exists s. split; [reflexivity|]. split.
  - cbn [option_map] in Hl. now injection Hl.
  - exact (proj1 (busy_flag_tracks_handler (Sample.world [] [])
                    Sample.waiting s Hrun)).
Defined.

(** X15 at samples: the completion of the first handler moves the page from
    [email] to [otp]. *)
Lemma step_moves_forward_witness :
  exists s s',
    run (initial (Sample.world [] [])) Sample.waiting = Some s
    /\ dispatch s Settle = Some s'
    /\ step (ui s) = Step.email
    /\ step (ui s') = Step.otp.
Proof.
  assert (Hst : option_map (fun s => step (ui s))
                  (run (initial (Sample.world [] [])) Sample.waiting)
                = Some Step.email) by (vm_compute; reflexivity).
  assert (Hnext : option_map (fun s => option_map (fun s' => step (ui s'))
                                                  (dispatch s Settle))
                    (run (initial (Sample.world [] [])) Sample.waiting)
                  = Some (Some Step.otp)) by (vm_compute; reflexivity).
  destruct (run (initial (Sample.world [] [])) Sample.waiting) as [s|] eqn:Hrun;
    [|discriminate Hst].
  lazy beta iota delta [option_map] in Hst, Hnext.
  injection Hst as Hst.
  assert (Hn : match dispatch s Settle with
               | Some a => Some (step (ui a))
               | None => None
               end = Some Step.otp) by congruence.
  clear Hnext. destruct (dispatch s Settle) as [s'|] eqn:Hd;
    [|discriminate Hn].
  assert (Hnext : step (ui s') = Step.otp) by congruence.
  exists s, s'. split; [reflexivity|]. split; [exact Hd|].
  split; [exact Hst|].
  destruct (step_moves_forward (Sample.world [] []) Sample.waiting s s' Settle
              Hrun Hd) as [Hsame|[_ Hforward]].
  - exact Hnext.
  - rewrite Hforward, Hst. reflexivity.
Defined.

(** X16 at samples: the page in the third step after a verification. *)
Lemma reset_needs_consumed_code_witness :
  exists s,
    run (initial (Sample.world [] [])) Sample.verified = Some s
    /\ step (ui s) = Step.password
    /\ consumed (FormData.email (formData (ui s)))
                (password_reset_otps (world s)).
Proof.
  destruct (run (initial (Sample.world [] [])) Sample.verified) as [s|] eqn:Hrun;
    [|vm_compute in Hrun; discriminate Hrun].
  assert (Hst : step (ui s) = Step.password).
  { vm_compute in Hrun. injection Hrun as <-. reflexivity. }
  exists s. split; [reflexivity|]. split; [exact Hst|].
  exact (proj1 (reset_needs_consumed_code (Sample.world [] []) Sample.verified
                  s Hrun Hst)).
Defined.


(** X18 at samples: the insertion refused by a policy. *)
Lemma handleSendOtp_store_failure_witness :
  exists s',
    run (Sample.asking [None; Some Sample.rls] []) [Submit; Settle] = Some s'
    /\ step (ui s') = Step.email
    /\ notices (ui s')
       = [notice_error "Database permission error. Please contact administrator to disable RLS for password_reset_otps table."]
    /\ password_reset_otps (world s') = []
    /\ outbox (world s') = [].
Proof.
  assert (Hemail : FormData.email
                     (formData (ui (Sample.asking [None; Some Sample.rls] [])))
                   <> "") by discriminate.
  destruct (handleSendOtp_store_failure
              (Sample.asking [None; Some Sample.rls] []) Sample.alice Sample.rls
              eq_refl eq_refl Hemail eq_refl eq_refl eq_refl)
    as (s' & text & Hrun & Hst & _ & Hns & Htext & Hos & Hob).
  exists s'. rewrite (Htext eq_refl) in Hns.
  repeat (split; [assumption|]). assumption.
Defined.

(** X19 at samples: the mail service rejects the dispatch. *)
Lemma handleSendOtp_mail_failure_witness :
  exists s' row,
    run (Sample.asking [] [Some (412, "Precondition Failed")]) [Submit; Settle]
    = Some s'
    /\ step (ui s') = Step.email
    /\ password_reset_otps (world s') = [row]
    /\ PasswordResetOtp.used row = false
    /\ outbox (world s') = [].
Proof.
  assert (Hemail : FormData.email
                     (formData (ui (Sample.asking []
                                      [Some (412, "Precondition Failed")])))
                   <> "") by discriminate.
  destruct (handleSendOtp_mail_failure
              (Sample.asking [] [Some (412, "Precondition Failed")])
              Sample.alice 412 "Precondition Failed"
              eq_refl eq_refl Hemail eq_refl eq_refl eq_refl eq_refl)
    as (s' & row & shown & Hrun & Hst & _ & _ & Hos & _ & Hu & Hob).
  exists s', row. repeat (split; [assumption|]). assumption.
Defined.

(** X20 at samples: the reset served, and the reset failed by an outage. *)
Lemma handleResetPassword_transitions_witness :
  (exists s',
     run (Sample.choosing "NewPass1!" "NewPass1!" []) [Submit; Settle] = Some s'
     /\ step (ui s') = Step.email
     /\ formData (ui s') = FormData.empty)
  /\ (exists s',
        run (Sample.choosing "NewPass1!" "NewPass1!" [Some Sample.outage])
            [Submit; Settle] = Some s'
        /\ step (ui s') = Step.password
        /\ formData (ui s')
           = FormData.mk "a@x.com" "123456" "NewPass1!" "NewPass1!").
Proof.
  split.
  - assert (Hnew : FormData.newPassword
                     (formData (ui (Sample.choosing "NewPass1!" "NewPass1!" [])))
                   <> "") by discriminate.
    destruct (handleResetPassword_transitions
                (Sample.choosing "NewPass1!" "NewPass1!" [])
                eq_refl eq_refl Hnew eq_refl)
      as (s' & Hrun & _ & _ & Hm).
    exists s'. split; [exact Hrun|]. split; [exact (proj1 Hm)|].
    exact (proj1 (proj2 Hm)).
  - assert (Hnew : FormData.newPassword
                     (formData (ui (Sample.choosing "NewPass1!" "NewPass1!"
                                      [Some Sample.outage])))
                   <> "") by discriminate.
    destruct (handleResetPassword_transitions
                (Sample.choosing "NewPass1!" "NewPass1!" [Some Sample.outage])
                eq_refl eq_refl Hnew eq_refl)
      as (s' & Hrun & _ & _ & Hm).
    exists s'. split; [exact Hrun|]. split; [exact (proj1 Hm)|].
    exact (proj1 (proj2 Hm)).
Defined.

(** X21 at samples: the confirmation differs from the new password. *)
Lemma handleResetPassword_rejects_witness :
  exists s',
    dispatch (Sample.choosing "NewPass1!" "NewPass2!" []) Submit = Some s'
    /\ step (ui s') = Step.password
    /\ isLoading (ui s') = false
    /\ world s' = world (Sample.choosing "NewPass1!" "NewPass2!" []).
Proof.
  destruct (handleResetPassword_rejects
              (Sample.choosing "NewPass1!" "NewPass2!" []) eq_refl eq_refl)
    as (s' & n & Hd & _ & _ & Hst & _ & Hl & _ & Hw).
  - right. right. discriminate.
  - exists s'. repeat (split; [assumption|]). assumption.
Defined.

